(** * gin-auth: configuration loading, e-mail dispatch and the account API.

    A shallow embedding of
      - [conf/conf.go]   (package conf: [GetServerConfig]),
      - [util/email.go]  (package util: [emailDispatcher.Send],
                          [MakePlainEmailTemplate]),
      - the bearer-token admission and the account handlers exercised by
        [web/account_test.go] (package web).

    Go values are modelled as follows: [string] is a byte string
    ([String.string]), [int] and [time.Duration] are integers in [Z]
    (a duration counts nanoseconds and its product wraps around at 64
    bits), a [panic] is the [Panic] outcome of a call, package-level
    variables are fields of an explicit state record, and maps from
    strings are [gmap string _]. *)

From Stdlib Require Import ZArith Lia List Ascii String.
From Stdlib Require Import Numbers.DecimalString.
From Stdlib Require Numbers.DecimalZ Numbers.DecimalPos.
From stdpp Require Import base option gmap strings.

Import ListNotations.
Local Open Scope Z_scope.
Local Open Scope string_scope.

(** The line feed that ends every line of a Go raw string literal. *)
Definition LF : string := String (ascii_of_nat 10) EmptyString.

(* ===================================================================== *)
(** ** Package conf *)
(* ===================================================================== *)

Module Conf.

(** [time.Duration] is an [int64] count of nanoseconds. *)
Definition Duration := Z.

Definition wrap64 (z : Z) : Z := (z + 2 ^ 63) mod 2 ^ 64 - 2 ^ 63.

Definition Nanosecond : Duration := 1.
Definition Microsecond : Duration := 1000 * Nanosecond.
Definition Millisecond : Duration := 1000 * Microsecond.
Definition Second : Duration := 1000 * Millisecond.
Definition Minute : Duration := 60 * Second.
Definition Hour : Duration := 60 * Minute.

(** [a * b] on [time.Duration]: the [int64] product. *)
Definition Duration_mul (a b : Duration) : Duration := wrap64 (a * b).

(** The unit of all life times and intervals is minute. *)
Definition defaultSessionLifeTime : Z := 2880.
Definition defaultTokenLifeTime : Z := 1440.
Definition defaultGrantReqLifeTime : Z := 15.
Definition defaultCleanerInterval : Z := 15.

Record ServerConfig := {
  Host : string;
  Port : Z;
  BaseURL : string;
  SessionLifeTime : Duration;
  TokenLifeTime : Duration;
  GrantReqLifeTime : Duration;
  CleanerInterval : Duration
}.

(** The anonymous struct [config.Http] that the YAML is decoded into. *)
Record HttpConfig := {
  http_Host : string;
  http_Port : Z;
  http_BaseURL : string;
  http_SessionLifeTime : Z;
  http_TokenLifeTime : Z;
  http_GrantReqLifeTime : Z;
  http_CleanerInterval : Z
}.

(** [config := &struct{ Http struct{...} }{}]: every field has Go's zero
    value. *)
Definition zeroHttpConfig : HttpConfig :=
  {| http_Host := ""; http_Port := 0; http_BaseURL := "";
     http_SessionLifeTime := 0; http_TokenLifeTime := 0;
     http_GrantReqLifeTime := 0; http_CleanerInterval := 0 |}.

(** The [Http:] mapping of a parsed YAML document: each key is present
    with a value or absent. *)
Record HttpYaml := {
  yaml_Host : option string;
  yaml_Port : option Z;
  yaml_BaseURL : option string;
  yaml_SessionLifeTime : option Z;
  yaml_TokenLifeTime : option Z;
  yaml_GrantReqLifeTime : option Z;
  yaml_CleanerInterval : option Z
}.

(** Decoding a document into a struct overwrites the fields whose key is
    present and leaves the others as they are. *)
Definition decodeInto (doc : HttpYaml) (c : HttpConfig) : HttpConfig :=
  {| http_Host := default (http_Host c) (yaml_Host doc);
     http_Port := default (http_Port c) (yaml_Port doc);
     http_BaseURL := default (http_BaseURL c) (yaml_BaseURL doc);
     http_SessionLifeTime :=
       default (http_SessionLifeTime c) (yaml_SessionLifeTime doc);
     http_TokenLifeTime :=
       default (http_TokenLifeTime c) (yaml_TokenLifeTime doc);
     http_GrantReqLifeTime :=
       default (http_GrantReqLifeTime c) (yaml_GrantReqLifeTime doc);
     http_CleanerInterval :=
       default (http_CleanerInterval c) (yaml_CleanerInterval doc) |}.

(** [%d] of [fmt.Sprintf]: decimal digits, with a minus sign in front of a
    negative number. *)
Definition fmt_d (n : Z) : string := NilZero.string_of_int (Z.to_int n).

(** The block under [// set defaults]. *)
Definition setDefaults (c : HttpConfig) : HttpConfig :=
  let baseURL :=
    if decide (http_BaseURL c = "") then
      if decide (http_Port c = 80) then
        "http://" +:+ http_Host c
      else
        "http://" +:+ http_Host c +:+ ":" +:+ fmt_d (http_Port c)
    else http_BaseURL c in
  let orDefault (v d : Z) := if decide (v = 0) then d else v in
  {| http_Host := http_Host c;
     http_Port := http_Port c;
     http_BaseURL := baseURL;
     http_SessionLifeTime :=
       orDefault (http_SessionLifeTime c) defaultSessionLifeTime;
     http_TokenLifeTime :=
       orDefault (http_TokenLifeTime c) defaultTokenLifeTime;
     http_GrantReqLifeTime :=
       orDefault (http_GrantReqLifeTime c) defaultGrantReqLifeTime;
     http_CleanerInterval :=
       orDefault (http_CleanerInterval c) defaultCleanerInterval |}.

(** [serverConfig = &ServerConfig{...}]. *)
Definition mkServerConfig (c : HttpConfig) : ServerConfig :=
  {| Host := http_Host c;
     Port := http_Port c;
     BaseURL := http_BaseURL c;
     SessionLifeTime := Duration_mul (http_SessionLifeTime c) Minute;
     TokenLifeTime := Duration_mul (http_TokenLifeTime c) Minute;
     GrantReqLifeTime := Duration_mul (http_GrantReqLifeTime c) Minute;
     CleanerInterval := Duration_mul (http_CleanerInterval c) Minute |}.

(** What the first call computes from a parsed document. *)
Definition loadServerConfig (doc : HttpYaml) : ServerConfig :=
  mkServerConfig (setDefaults (decodeInto doc zeroHttpConfig)).

(** What a call does to the outside world: the path it hands to
    [ioutil.ReadFile], the content it hands to [yaml.Unmarshal]. *)
Inductive Event :=
| ReadFile (file : string)
| Unmarshal (content : string).

(** The package-level variables, and the journal of the events so far
    (ghost state, newest first). *)
Record State := {
  resourcesPath : string;
  serverConfig : option ServerConfig;
  journal : list Event
}.

Definition isReadFile (e : Event) : bool :=
  match e with ReadFile _ => true | Unmarshal _ => false end.

Definition isUnmarshal (e : Event) : bool :=
  match e with ReadFile _ => false | Unmarshal _ => true end.

(** The files on disk: contents by path, [None] when reading fails. *)
Definition FileSystem := string -> option string.

Inductive outcome (A : Type) :=
| Returned (a : A) (st : State)
| Panicked (st : State).
Arguments Returned {A} a st.
Arguments Panicked {A} st.

(** What loading the configuration adds to the journal: nothing, a read
    that failed, or a read and the parse of what was read. *)
Inductive loadEvents : list Event -> Prop :=
| load_none : loadEvents []
| load_read file : loadEvents [ReadFile file]
| load_parsed file content :
    loadEvents [Unmarshal content; ReadFile file].

(** SetResourcesPath sets the resource path to the specified location. *)
Definition SetResourcesPath (res : string) (st : State) : State :=
  {| resourcesPath := res;
     serverConfig := serverConfig st;
     journal := journal st |}.

Definition logged (e : Event) (st : State) : State :=
  {| resourcesPath := resourcesPath st;
     serverConfig := serverConfig st;
     journal := e :: journal st |}.

(** What the process does with the package, one step at a time; the files
    are given as they are at the moment of the call. *)
Inductive Op :=
| CallGetServerConfig (fs : FileSystem)
| CallSetResourcesPath (res : string).

Section GetServerConfig.

(** [path.Join] and the document part of [yaml.Unmarshal] ([None] when
    it reports an error) are library code. *)
Variable path_Join : list string -> string.
Variable yaml_Unmarshal : string -> option HttpYaml.

Definition serverConfigFile : string := path_Join ["conf"; "server.yml"].

(** [serverConfigLock] makes a call atomic; a call is one step on
    [State]. *)
Definition GetServerConfig (fs : FileSystem) (st : State)
  : outcome ServerConfig :=
  match serverConfig st with
  | Some c => Returned c st
  | None =>
    let file := path_Join [resourcesPath st; serverConfigFile] in
    let st1 := logged (ReadFile file) st in
    match fs file with
    | None => Panicked st1
    | Some content =>
      let st2 := logged (Unmarshal content) st1 in
      match yaml_Unmarshal content with
      | None => Panicked st2
      | Some doc =>
        let c := loadServerConfig doc in
        Returned c {| resourcesPath := resourcesPath st2;
                      serverConfig := Some c;
                      journal := journal st2 |}
      end
    end
  end.

(** A process: its steps one after the other; a panic ends it. The
    values that the calls of [GetServerConfig] return are collected in
    call order, next to the final state. *)
Fixpoint process (ops : list Op) (st : State)
  : list ServerConfig * State :=
  match ops with
  | [] => ([], st)
  | CallSetResourcesPath res :: rest =>
      process rest (SetResourcesPath res st)
  | CallGetServerConfig fs :: rest =>
    match GetServerConfig fs st with
    | Returned c st' =>
      let '(cs, st'') := process rest st' in (c :: cs, st'')
    | Panicked st' => ([], st')
    end
  end.

(** The state at process start ([init] has set [resourcesPath]). *)
Definition initial (res : string) : State :=
  {| resourcesPath := res; serverConfig := None; journal := [] |}.

End GetServerConfig.

(** A key of the YAML that is left out, or given as zero. *)
Definition omitsOrZero (v : option Z) : Prop := v = None \/ v = Some 0.

(** A key of the YAML that is given as [n]. *)
Definition configured (v : option Z) (n : Z) : Prop := v = Some n /\ n <> 0.

(** The values of [int64]. *)
Definition fitsInt64 (z : Z) : Prop := - 2 ^ 63 <= z < 2 ^ 63.

(** A file system with the one file [conf/server.yml] under [res], a join
    of path elements with slashes and a decoder that knows two contents,
    for running the model. *)
Definition sampleJoin (elems : list string) : string :=
  fold_right (fun e acc => if decide (acc = "") then e else e +:+ "/" +:+ acc)
             "" elems.

Definition emptyYaml : HttpYaml :=
  {| yaml_Host := None; yaml_Port := None; yaml_BaseURL := None;
     yaml_SessionLifeTime := None; yaml_TokenLifeTime := None;
     yaml_GrantReqLifeTime := None; yaml_CleanerInterval := None |}.

Definition sampleYaml : HttpYaml :=
  {| yaml_Host := Some "localhost"; yaml_Port := Some 8081;
     yaml_BaseURL := None;
     yaml_SessionLifeTime := Some 0; yaml_TokenLifeTime := None;
     yaml_GrantReqLifeTime := Some 30; yaml_CleanerInterval := None |}.

Definition sampleUnmarshal (content : string) : option HttpYaml :=
  if decide (content = "") then Some emptyYaml
  else if decide (content = "Http: sample") then Some sampleYaml
  else None.

Definition sampleFiles (content : string) : FileSystem :=
  fun file =>
    if decide (file = "res/conf/server.yml") then Some content else None.

End Conf.

(* ===================================================================== *)
(** ** Package util *)
(* ===================================================================== *)

Module Util.

(** EmailConfig contains all information required for e-mail dispatch via
    smtp. *)
Record EmailConfig := {
  Identity : string;
  Dispatcher : string;
  Password : string;
  Host : string;
  Port : string
}.

(** [smtp.Auth] as built by [smtp.PlainAuth]: the four strings it was
    given. *)
Record Auth := {
  auth_identity : string;
  auth_username : string;
  auth_password : string;
  auth_host : string
}.

Definition PlainAuth (identity username password host : string) : Auth :=
  {| auth_identity := identity; auth_username := username;
     auth_password := password; auth_host := host |}.

(** A Go [error]: [None] is [nil]. *)
Definition error := option string.

(** The arguments of one call of a send function. *)
Record SendCall := {
  call_addr : string;
  call_auth : Auth;
  call_from : string;
  call_to : list string;
  call_msg : string
}.

Section Dispatch.

(** Whatever a send function acts on (the network, a test recorder). *)
Context {World : Type}.

(** [func(string, smtp.Auth, string, []string, []byte) error], acting on
    the world. *)
Definition SendFunc :=
  string -> Auth -> string -> list string -> string ->
  World -> error * World.

Record emailDispatcher := {
  conf : EmailConfig;
  send : SendFunc
}.

(** Send sets up authentication for e-mail dispatch via smtp and invokes
    the objects send function. *)
Definition Send (e : emailDispatcher) (recipient : list string)
    (content : string) : World -> error * World :=
  let addr := Host (conf e) +:+ ":" +:+ Port (conf e) in
  let auth := PlainAuth (Identity (conf e)) (Dispatcher (conf e))
                        (Password (conf e)) (Host (conf e)) in
  send e addr auth (Dispatcher (conf e)) recipient content.

End Dispatch.

Arguments SendFunc World : clear implicits.
Arguments emailDispatcher World : clear implicits.

(** A send function that behaves as [f] and appends each call it receives
    to a journal kept next to [f]'s world. *)
Definition recording {World} (f : SendFunc World)
  : SendFunc (World * list SendCall) :=
  fun addr auth from to msg w =>
    let '(err, w') := f addr auth from to msg (fst w) in
    (err, (w', (snd w ++ [ {| call_addr := addr; call_auth := auth;
                              call_from := from; call_to := to;
                              call_msg := msg |} ])%list)).

(** *** The fragment of [text/template] that [MakePlainEmailTemplate] uses:
    literal text and actions of the form [{{ .Field }}]. *)

Inductive Node :=
| TextNode (text : string)
| FieldNode (name : string).

(** Letters, digits and the underscore make up a field name. *)
Definition isAlphaNumeric (c : ascii) : bool :=
  let n := nat_of_ascii c in
  ((48 <=? n) && (n <=? 57) || (65 <=? n) && (n <=? 90)
   || (97 <=? n) && (n <=? 122) || (n =? 95))%nat.

Definition isSpace (c : ascii) : bool :=
  let n := nat_of_ascii c in ((n =? 32) || (n =? 9))%nat.

Inductive LexState :=
| InText (acc : string)       (* outside an action, text read so far *)
| InAction                    (* after the left delimiter *)
| InField (acc : string)      (* after the dot, name read so far *)
| AfterField (name : string). (* name complete, right delimiter due *)

Definition textNodes (acc : string) : list Node :=
  if decide (acc = "") then [] else [TextNode acc].

Definition snoc (s : string) (c : ascii) : string :=
  s +:+ String c EmptyString.

(** [Parse]: [None] is a parse error (an unclosed action, or an action
    outside the fragment). *)
Fixpoint parseFrom (st : LexState) (s : string) : option (list Node) :=
  match st, s with
  | InText acc, EmptyString => Some (textNodes acc)
  | InText acc, String "{" (String "{" r) =>
      app (textNodes acc) <$> parseFrom InAction r
  | InText acc, String c r => parseFrom (InText (snoc acc c)) r
  | InAction, String "." r => parseFrom (InField "") r
  | InAction, String c r => if isSpace c then parseFrom InAction r else None
  | InAction, EmptyString => None
  | InField acc, String "}" (String "}" r) =>
      if decide (acc = "") then None
      else cons (FieldNode acc) <$> parseFrom (InText "") r
  | InField acc, String c r =>
      if isAlphaNumeric c then parseFrom (InField (snoc acc c)) r
      else if isSpace c && negb (bool_decide (acc = ""))
           then parseFrom (AfterField acc) r
      else None
  | InField _, EmptyString => None
  | AfterField name, String "}" (String "}" r) =>
      cons (FieldNode name) <$> parseFrom (InText "") r
  | AfterField name, String c r =>
      if isSpace c then parseFrom (AfterField name) r else None
  | AfterField _, EmptyString => None
  end.

Definition Parse (text : string) : option (list Node) :=
  parseFrom (InText "") text.

(** The anonymous struct [content]. *)
Record Content := {
  From : string;
  To : string;
  Subject : string;
  Body : string
}.

(** Field lookup by name, as the template engine does by reflection. *)
Definition fieldByName (c : Content) (name : string) : option string :=
  if decide (name = "From") then Some (From c)
  else if decide (name = "To") then Some (To c)
  else if decide (name = "Subject") then Some (Subject c)
  else if decide (name = "Body") then Some (Body c)
  else None.

(** [Execute] into a buffer that holds [doc]: text is copied, a field is
    printed as it is; [None] is an execution error (no such field). *)
Fixpoint Execute (t : list Node) (c : Content) (doc : string)
  : option string :=
  match t with
  | [] => Some doc
  | TextNode text :: rest => Execute rest c (doc +:+ text)
  | FieldNode name :: rest =>
      match fieldByName c name with
      | Some v => Execute rest c (doc +:+ v)
      | None => None
      end
  end.

(** [strings.Join]. *)
Fixpoint Join (elems : list string) (sep : string) : string :=
  match elems with
  | [] => ""
  | x :: rest =>
      match rest with
      | [] => x
      | _ => x +:+ sep +:+ Join rest sep
      end
  end.

(** The text made of the given lines, each ended by a line feed. *)
Definition unlines (lines : list string) : string :=
  fold_right (fun l acc => l +:+ LF +:+ acc) "" lines.

Definition emailTemplate : string :=
  "From: {{ .From }}" +:+ LF +:+
  "To: {{ .To }}" +:+ LF +:+
  "Subject: {{ .Subject }}" +:+ LF +:+
  LF +:+
  "{{ .Body }}" +:+ LF.

Inductive result (A : Type) :=
| Ok (a : A)
| Panic (msg : string).
Arguments Ok {A} a.
Arguments Panic {A} msg.

(** MakePlainEmailTemplate returns a bytes.Buffer containing a standard
    e-mail. *)
Definition MakePlainEmailTemplate (from : string) (to : list string)
    (subj : string) (messageBody : string) : result string :=
  let content := {| From := from; To := Join to ", ";
                    Subject := subj; Body := messageBody |} in
  match Parse emailTemplate with
  | None => Panic "Error parsing e-mail template"
  | Some t =>
      match Execute t content "" with
      | None => Panic "Error executing e-mail template"
      | Some doc => Ok doc
      end
  end.

End Util.

(* ===================================================================== *)
(** ** Package web: admission and the account API *)
(* ===================================================================== *)

Module Web.

(** The handlers, the token registry and the stores are not among the
    sources at hand; [web/account_test.go] drives them over HTTP. They are
    modelled below from the design document, and the test file's requests
    are replayed against the model at the end of the development. *)

(** Modelled from the spec: the error kinds of the core that have an HTTP
    status (the type and its mapping are not in the sources). *)
Inductive ErrorKind :=
| Malformed
| Unauthenticated
| Forbidden
| NotFound
| Conflict
| StoreUnavailable.

Definition StatusOK : Z := 200.
Definition StatusBadRequest : Z := 400.
Definition StatusUnauthorized : Z := 401.
Definition StatusForbidden : Z := 403.
Definition StatusNotFound : Z := 404.
Definition StatusConflict : Z := 409.
Definition StatusServiceUnavailable : Z := 503.

(** Modelled from the spec: the fixed status of each error kind
    (error-to-status propagation, missing from the sources). *)
Definition httpStatus (k : ErrorKind) : Z :=
  match k with
  | Unauthenticated => StatusUnauthorized
  | Forbidden => StatusUnauthorized
  | NotFound => StatusNotFound
  | Malformed => StatusBadRequest
  | Conflict => StatusConflict
  | StoreUnavailable => StatusServiceUnavailable
  end.

(** A scope is an unordered set of short identifiers. *)
Abbreviation Scope := (gset string).

Definition accountAdmin : string := "account-admin".

(** Modelled from the spec: the access token of the data model (the data
    package is missing). The owning account is absent on a token issued
    to a client for itself. Times are seconds on the service's clock. *)
Record AccessToken := {
  tokenString : string;
  accountID : option string;
  clientID : string;
  scope : Scope;
  createdAt : Z;
  lifetime : Z
}.

(** Modelled from the spec: the principal a credential resolves to, an
    account, a client or nobody (the type is missing from the sources). *)
Inductive Principal :=
| AccountPrincipal (uuid : string)
| ClientPrincipal (id : string)
| Anonymous.

#[global] Instance Principal_eq_dec : EqDecision Principal.
Proof. solve_decision. Defined.

(** Modelled from the spec: the subject of a token, account id or client
    id (missing from the sources). *)
Definition subject (t : AccessToken) : Principal :=
  match accountID t with
  | Some a => AccountPrincipal a
  | None => ClientPrincipal (clientID t)
  end.

(** Modelled from the spec: [Validate] of the token registry (missing
    from the sources). Looks up the access token; if absent,
    [Unauthenticated]; if present and [createdAt + lifetime <= now], delete
    it and return [Unauthenticated]; otherwise return the principal and
    the stored scope. The result comes with the token store as the call
    leaves it. *)
Definition Validate (now : Z) (bearer : string)
    (tokens : gmap string AccessToken)
  : (ErrorKind + Principal * Scope) * gmap string AccessToken :=
  match tokens !! bearer with
  | None => (inl Unauthenticated, tokens)
  | Some t =>
      if decide (createdAt t + lifetime t <= now)
      then (inl Unauthenticated, delete bearer tokens)
      else (inr (subject t, scope t), tokens)
  end.

(** Modelled from the spec: [RequireScope] (missing from the sources)
    succeeds iff [required ⊆ scope] and emits [Forbidden] on failure. *)
Definition RequireScope (granted required : Scope) : option ErrorKind :=
  if decide (required ⊆ granted) then None else Some Forbidden.

(** Modelled from the spec: the account of the data model (the data
    package is missing), without its reset code. *)
Record Account := {
  uuid : string;
  login : string;
  pwHash : string;
  title : option string;
  firstName : string;
  middleName : option string;
  lastName : string;
  email : string;
  active : bool
}.

(** The JSON body of [PUT /api/accounts/:login]: the fields of
    [jsonAccount] that the test sends. *)
Record ProfileUpdate := {
  newTitle : option string;
  newFirstName : string;
  newMiddleName : option string;
  newLastName : string
}.

(** The JSON body of [PUT /api/accounts/:login/password]. *)
Record PasswordUpdate := {
  PasswordOld : string;
  PasswordNew : string;
  PasswordNewRepeat : string
}.

(** Modelled from the spec: the routes of the account API in the table of
    the HTTP surface (the router is missing), with the bodies the tests
    send. *)
Inductive Endpoint :=
| ListAccounts
| GetAccount (login : string)
| UpdateAccount (login : string) (body : ProfileUpdate)
| UpdateAccountPassword (login : string) (body : PasswordUpdate).

(** Modelled from the spec: what admission and the handlers read of a
    request (HTTP transport is missing). *)
Record Request := {
  endpoint : Endpoint;
  authorization : option string  (* the token of [Authorization: Bearer] *)
}.

(** Modelled from the spec: what a response carries, an error kind or
    account data (the JSON encoding is missing). *)
Inductive Body :=
| ErrorBody (kind : ErrorKind)
| AccountBody (a : Account)
| AccountsBody (l : list Account)
| NoBody.

Record Response := {
  Code : Z;
  body : Body
}.

(** Modelled from the spec: the mutable shared state, the token table
    and the account table, the latter by login (the stores are
    missing). *)
Record Store := {
  tokens : gmap string AccessToken;
  accounts : gmap string Account
}.

(** Modelled from the spec: the response to a failed request has the
    status of its error kind (missing from the sources). *)
Definition failWith (k : ErrorKind) : Response :=
  {| Code := httpStatus k; body := ErrorBody k |}.

(** Modelled from the spec: the response to a request that succeeds
    (missing from the sources). *)
Definition ok (b : Body) : Response := {| Code := StatusOK; body := b |}.

Section Handlers.

(** Password hashing is an external collaborator providing [Hash] and
    [Verify]. *)
Variable Hash : string -> string.
Variable Verify : string -> string -> bool.

(** Modelled from the spec: the test that the password handler (missing
    from the sources) applies to a request before it changes the
    password. The spec names conditions under which a change goes through
    but not the test itself, which stays a parameter. *)
Variable passwordChangeOk : Account -> PasswordUpdate -> bool.

(** Modelled from the spec: [Account.VerifyPassword] (the data package
    is missing) invokes [Verify] on the stored hash. *)
Definition VerifyPassword (a : Account) (plain : string) : bool :=
  Verify (pwHash a) plain.

(** Modelled from the spec: "self" in the table of the HTTP surface, the
    caller is the account itself (the handlers are missing). *)
Definition isSelf (p : Principal) (a : Account) : bool :=
  bool_decide (p = AccountPrincipal (uuid a)).

(** Modelled from the spec: the access rule of each route of the HTTP
    surface table (the handlers are missing): [account-admin] for the
    list, the account itself or [account-admin] for reading, the account
    itself for the two updates. [target] is the account the path
    names. *)
Definition authorized (e : Endpoint) (p : Principal) (sc : Scope)
    (target : option Account) : bool :=
  match e, target with
  | ListAccounts, _ => bool_decide (RequireScope sc {[accountAdmin]} = None)
  | GetAccount _, Some a =>
      isSelf p a || bool_decide (RequireScope sc {[accountAdmin]} = None)
  | UpdateAccount _ _, Some a => isSelf p a
  | UpdateAccountPassword _ _, Some a => isSelf p a
  | _, None => false
  end.

(** Modelled from the spec: the [:login] of the path (the router is
    missing). *)
Definition targetLogin (e : Endpoint) : option string :=
  match e with
  | ListAccounts => None
  | GetAccount l => Some l
  | UpdateAccount l _ => Some l
  | UpdateAccountPassword l _ => Some l
  end.

(** Modelled from the spec: "Update profile" (the handler is missing)
    replaces the names and the title. *)
Definition applyProfile (u : ProfileUpdate) (a : Account) : Account :=
  {| uuid := uuid a; login := login a; pwHash := pwHash a;
     title := newTitle u; firstName := newFirstName u;
     middleName := newMiddleName u; lastName := newLastName u;
     email := email a; active := active a |}.

(** Modelled from the spec: "Rotate password" (the handler is missing)
    stores the hash of the new password. *)
Definition setPassword (plain : string) (a : Account) : Account :=
  {| uuid := uuid a; login := login a; pwHash := Hash plain;
     title := title a; firstName := firstName a;
     middleName := middleName a; lastName := lastName a;
     email := email a; active := active a |}.

(** Modelled from the spec: the handlers behind the routes (missing from
    the sources), entered once the caller is identified and the access
    rule has passed. *)
Definition handle (e : Endpoint) (target : option Account) (st : Store)
  : Response * Store :=
  match e, target with
  | ListAccounts, _ =>
      (ok (AccountsBody (snd <$> map_to_list (accounts st))), st)
  | GetAccount _, Some a => (ok (AccountBody a), st)
  | UpdateAccount l u, Some a =>
      let a' := applyProfile u a in
      (ok (AccountBody a'),
       {| tokens := tokens st; accounts := <[l := a']> (accounts st) |})
  | UpdateAccountPassword l u, Some a =>
      if passwordChangeOk a u then
        (ok NoBody,
         {| tokens := tokens st;
            accounts := <[l := setPassword (PasswordNew u) a]>
                          (accounts st) |})
      else (failWith Malformed, st)
  | _, None => (failWith NotFound, st)
  end.

(** Modelled from the spec: admission followed by the handler (the
    middleware and the router are missing). A request without a bearer
    token, or with one that [Validate] rejects, is [Unauthenticated]; a
    path naming no account is [NotFound]; a caller the access rule
    refuses is [Forbidden]. *)
Definition ServeHTTP (now : Z) (r : Request) (st : Store)
  : Response * Store :=
  match authorization r with
  | None => (failWith Unauthenticated, st)
  | Some bearer =>
      match Validate now bearer (tokens st) with
      | (inl k, tokens') =>
          (failWith k, {| tokens := tokens'; accounts := accounts st |})
      | (inr (p, sc), tokens') =>
          let st' := {| tokens := tokens'; accounts := accounts st |} in
          let target := targetLogin (endpoint r) ≫= (accounts st' !!.) in
          match targetLogin (endpoint r), target with
          | Some _, None => (failWith NotFound, st')
          | _, _ =>
              if authorized (endpoint r) p sc target
              then handle (endpoint r) target st'
              else (failWith Forbidden, st')
          end
      end
  end.

End Handlers.

(** The path of the request names an account that is not the caller's
    own. *)
Definition targetsOtherAccount (e : Endpoint) (p : Principal) (st : Store)
  : Prop :=
  exists l a, targetLogin e = Some l /\ accounts st !! l = Some a /\
              p <> AccountPrincipal (uuid a).

(** The access rule of the route turns the caller away: the scope lacks
    [account-admin] on the list; the path names an existing account that
    is not the caller's own on the updates, and on reading unless the
    scope has [account-admin]. *)
Definition refused (e : Endpoint) (p : Principal) (sc : Scope) (st : Store)
  : Prop :=
  match e with
  | ListAccounts => accountAdmin ∉ sc
  | GetAccount _ => targetsOtherAccount e p st /\ accountAdmin ∉ sc
  | UpdateAccount _ _ => targetsOtherAccount e p st
  | UpdateAccountPassword _ _ => targetsOtherAccount e p st
  end.

(** *** The fixture the tests of [web/account_test.go] run against: the
    accounts alice and bob, a token of alice, an expired token of bob and
    a token of alice with scope [account-admin]. *)

Definition uuidAlice : string := "bf431618-f696-4dca-a95d-882618ce4ef9".
Definition uuidBob : string := "51f5ac36-d332-4889-8023-6e033fee53b1".
Definition accessTokenAlice : string := "3N7MP7M7".
Definition accessTokenBob : string := "LJ3W7ZFK".
Definition accessTokenAliceAdmin : string := "KDEW57D4".

(** A stand-in for the password hash, for running the model. *)
Definition toyHash (plain : string) : string := "$toy$" +:+ plain.
Definition toyVerify (hashed plain : string) : bool :=
  bool_decide (hashed = toyHash plain).

(** A stand-in for the test of the password handler, for running the
    model: the conditions of the scenario "Password change". *)
Definition toyPasswordChangeOk (a : Account) (u : PasswordUpdate) : bool :=
  VerifyPassword toyVerify a (PasswordOld u)
  && bool_decide (PasswordNew u = PasswordNewRepeat u)
  && (8 <=? String.length (PasswordNew u))%nat.

Definition alice : Account :=
  {| uuid := uuidAlice; login := "alice"; pwHash := toyHash "testtest";
     title := None; firstName := "Alice"; middleName := None;
     lastName := "Goodchild"; email := "alice@foo.com"; active := true |}.

Definition bob : Account :=
  {| uuid := uuidBob; login := "bob"; pwHash := toyHash "testtest";
     title := None; firstName := "Bob"; middleName := None;
     lastName := "Beaver"; email := "bob@foo.com"; active := true |}.

Definition fixtureNow : Z := 100000.

Definition tokenAlice : AccessToken :=
  {| tokenString := accessTokenAlice; accountID := Some uuidAlice;
     clientID := "gin"; scope := {["account-read"; "repo-read"]};
     createdAt := 99000; lifetime := 86400 |}.

(** is expired *)
Definition tokenBob : AccessToken :=
  {| tokenString := accessTokenBob; accountID := Some uuidBob;
     clientID := "gin"; scope := {["account-read"]};
     createdAt := 10000; lifetime := 86400 |}.

(** has scope 'account-admin' *)
Definition tokenAliceAdmin : AccessToken :=
  {| tokenString := accessTokenAliceAdmin; accountID := Some uuidAlice;
     clientID := "gin"; scope := {[accountAdmin]};
     createdAt := 99000; lifetime := 86400 |}.

Definition fixtureTokens : gmap string AccessToken :=
  <[accessTokenAlice := tokenAlice]>
    (<[accessTokenBob := tokenBob]>
       (<[accessTokenAliceAdmin := tokenAliceAdmin]> ∅)).

Definition fixture : Store :=
  {| tokens := fixtureTokens;
     accounts := <["alice" := alice]> (<["bob" := bob]> ∅) |}.

Definition bearerRequest (e : Endpoint) (token : string) : Request :=
  {| endpoint := e; authorization := Some token |}.

Definition anonymousRequest (e : Endpoint) : Request :=
  {| endpoint := e; authorization := None |}.

(** The status of the response to a request sent to the fixture. *)
Definition fixtureCode (r : Request) : Z :=
  Code (fst (ServeHTTP toyHash toyPasswordChangeOk fixtureNow r fixture)).

(** The bodies of the two tests that send one. *)
Definition bodyAlix : ProfileUpdate :=
  {| newTitle := Some "Dr"; newFirstName := "Alix"; newMiddleName := None;
     newLastName := "Bonenfant" |}.

Definition mkBody (old new repeat : string) : PasswordUpdate :=
  {| PasswordOld := old; PasswordNew := new; PasswordNewRepeat := repeat |}.

End Web.

(* ===================================================================== *)
(** ** Package path of the Go library, as package conf uses it *)
(* ===================================================================== *)

Module Path.

(** [path.Join] and [path.Clean] belong to the Go library, not to the
    repository; package conf builds every one of its paths with them. They
    are modelled here after the library's implementation. The buffer of
    [Clean] is kept as the list of the bytes written, last byte first;
    [out.w] is its length. *)

(** Whether an element of the path ends here: at the end of the path or
    in front of a slash. *)
Definition endsElement (rest : string) : bool :=
  match rest with
  | EmptyString => true
  | String c _ => bool_decide (c = "/"%char)
  end.

(** The [..] case with [out.w > dotdot]: back up to the previous slash, not
    further than [dotdot]. *)
Fixpoint backUp (dotdot : nat) (out : list ascii) : list ascii :=
  match out with
  | [] => []
  | c :: out' =>
      if (dotdot <? length out')%nat && negb (bool_decide (c = "/"%char))
      then backUp dotdot out'
      else out'
  end.

(** The loop of [Clean] over what is left of the path. [inElement] is set
    while the bytes of an element are copied. *)
Fixpoint cleanLoop (rooted inElement : bool) (out : list ascii)
    (dotdot : nat) (path : string) : list ascii :=
  match path with
  | EmptyString => out
  | String c rest =>
    let element (_ : unit) :=
      (* real path element: add slash if needed, copy element *)
      let out' :=
        if rooted && negb (length out =? 1)%nat
           || negb rooted && negb (length out =? 0)%nat
        then "/"%char :: out else out in
      cleanLoop rooted true (c :: out') dotdot rest in
    if inElement then
      if bool_decide (c = "/"%char)
      then cleanLoop rooted false out dotdot rest
      else cleanLoop rooted true (c :: out) dotdot rest
    else if bool_decide (c = "/"%char) then
      (* empty path element *)
      cleanLoop rooted false out dotdot rest
    else if bool_decide (c = "."%char) && endsElement rest then
      (* . element *)
      cleanLoop rooted false out dotdot rest
    else
      match rest with
      | String c' rest' =>
        if bool_decide (c = "."%char) && bool_decide (c' = "."%char)
           && endsElement rest'
        then
          (* .. element: remove to last / *)
          if (dotdot <? length out)%nat then
            cleanLoop rooted false (backUp dotdot out) dotdot rest'
          else if negb rooted then
            (* cannot backtrack, but not rooted, so append .. element *)
            let out' := if (0 <? length out)%nat
                        then "/"%char :: out else out in
            let out'' := "."%char :: "."%char :: out' in
            cleanLoop rooted false out'' (length out'') rest'
          else cleanLoop rooted false out dotdot rest'
        else element tt
      | EmptyString => element tt
      end
  end.

(** Clean returns the shortest path name equivalent to path by purely
    lexical processing. *)
Definition Clean (path : string) : string :=
  match path with
  | EmptyString => "."
  | String c rest =>
    let rooted := bool_decide (c = "/"%char) in
    let out :=
      if rooted then cleanLoop true false ["/"%char] 1 rest
      else cleanLoop false false [] 0 path in
    match out with
    | [] => "."
    | _ => string_of_list_ascii (rev out)
    end
  end.

(** Join joins any number of path elements into a single path, adding a
    separating slash if necessary. The result is Cleaned; in particular,
    all empty strings are ignored. *)
Fixpoint Join (elem : list string) : string :=
  match elem with
  | [] => ""
  | e :: rest =>
      if decide (e = "") then Join rest
      else Clean (Util.Join elem "/")
  end.

End Path.

(* ===================================================================== *)
(** ** Package conf, the other helpers *)
(* ===================================================================== *)

Module ConfPkg.

(** DbConfig contains data needed to connect to a SQL database. *)
Record DbConfig := {
  Driver : string;
  Open : string
}.

(** The keys [driver] and [open] of a parsed YAML document. *)
Record DbYaml := {
  yaml_driver : option string;
  yaml_open : option string
}.

(** [yaml.Unmarshal(content, config)] into [config := &DbConfig{}]. *)
Definition decodeDb (doc : DbYaml) : DbConfig :=
  {| Driver := default "" (yaml_driver doc);
     Open := default "" (yaml_open doc) |}.

(** SmtpCredentials contains the credentials required to send e-mails via
    smtp. *)
Record SmtpCredentials := {
  From : string;
  Password : string;
  Host : string;
  Port : Z;
  Mode : string
}.

(** The [Smtp:] mapping of a parsed YAML document. *)
Record SmtpYaml := {
  yaml_From : option string;
  yaml_Password : option string;
  yaml_Host : option string;
  yaml_Port : option Z;
  yaml_Mode : option string
}.

(** The zero-valued anonymous struct [credentials.Smtp] after decoding,
    copied field by field into [&SmtpCredentials{...}]. *)
Definition decodeSmtp (doc : SmtpYaml) : SmtpCredentials :=
  {| From := default "" (yaml_From doc);
     Password := default "" (yaml_Password doc);
     Host := default "" (yaml_Host doc);
     Port := default 0 (yaml_Port doc);
     Mode := default "" (yaml_Mode doc) |}.

(** All package-level variables: those of [Conf.State] with its journal,
    [dbConfig] and [smtpCred]. *)
Record Vars := {
  base : Conf.State;
  dbConfig : option DbConfig;
  smtpCred : option SmtpCredentials
}.

Definition withBase (st : Conf.State) (v : Vars) : Vars :=
  {| base := st; dbConfig := dbConfig v; smtpCred := smtpCred v |}.

Definition journalOf (v : Vars) : list Conf.Event := Conf.journal (base v).

Inductive result (A : Type) :=
| Done (a : A) (v : Vars)
| Aborted (v : Vars).
Arguments Done {A} a v.
Arguments Aborted {A} v.

Definition varsOf {A} (r : result A) : Vars :=
  match r with Done _ v => v | Aborted v => v end.

(** The three variables that are loaded on demand. *)
Inductive Getter := Server | Db | Smtp.

#[global] Instance Getter_eq_dec : EqDecision Getter.
Proof. solve_decision. Defined.

Inductive Value :=
| ServerValue (c : Conf.ServerConfig)
| DbValue (c : DbConfig)
| SmtpValue (c : SmtpCredentials).

Definition getterOf (x : Value) : Getter :=
  match x with
  | ServerValue _ => Server
  | DbValue _ => Db
  | SmtpValue _ => Smtp
  end.

(** What a variable holds, as a value. *)
Definition held (g : Getter) (v : Vars) : option Value :=
  match g with
  | Server => ServerValue <$> Conf.serverConfig (base v)
  | Db => DbValue <$> dbConfig v
  | Smtp => SmtpValue <$> smtpCred v
  end.

(** How many of the three variables are set. *)
(** The configuration held, if any, is one the loader computes. *)
Definition fromLoader (st : Conf.State) : Prop :=
  forall c, Conf.serverConfig st = Some c ->
            exists doc, c = Conf.loadServerConfig doc.

Definition isSet {A} (variable : option A) : nat :=
  match variable with Some _ => 1 | None => 0 end.

Definition loadedCount (v : Vars) : nat :=
  isSet (Conf.serverConfig (base v)) + isSet (dbConfig v)
  + isSet (smtpCred v).

Definition countReads (j : list Conf.Event) : nat :=
  length (List.filter Conf.isReadFile j).

Definition countParses (j : list Conf.Event) : nat :=
  length (List.filter Conf.isUnmarshal j).

(** What the process does with the package, one step at a time. *)
Inductive Call :=
| Get (g : Getter) (fs : Conf.FileSystem)
| SetRes (res : string).

Section Helpers.

(** [path.Join], and [yaml.Unmarshal] for each of the three structs it is
    given ([None] when it reports an error). *)
Variable path_Join : list string -> string.
Variable yaml_Http : string -> option Conf.HttpYaml.
Variable yaml_Db : string -> option DbYaml.
Variable yaml_Smtp : string -> option SmtpYaml.

Definition serverConfigFile : string := path_Join ["conf"; "server.yml"].
Definition dbConfigFile : string := path_Join ["conf"; "dbconf.yml"].
Definition clientsConfigFile : string := path_Join ["conf"; "clients.yml"].
Definition staticFilesDir : string := path_Join ["static"].

(** The file a getter loads its variable from. *)
Definition fileOf (g : Getter) (v : Vars) : string :=
  match g with
  | Server | Smtp =>
      path_Join [Conf.resourcesPath (base v); serverConfigFile]
  | Db => path_Join [Conf.resourcesPath (base v); dbConfigFile]
  end.

(** [func init()], given the value of the environment variable GOPATH. *)
Definition init (GOPATH : string) : Conf.State :=
  let basePath := GOPATH in
  {| Conf.resourcesPath :=
       if decide (basePath = "") then ""
       else path_Join [basePath; "src"; "github.com"; "G-Node"; "gin-auth";
                       "resources"];
     Conf.serverConfig := None;
     Conf.journal := [] |}.

Definition initVars (GOPATH : string) : Vars :=
  {| base := init GOPATH; dbConfig := None; smtpCred := None |}.

(** [GetServerConfig], on all the variables. *)
Definition GetServerConfig (fs : Conf.FileSystem) (v : Vars)
  : result Conf.ServerConfig :=
  match Conf.GetServerConfig path_Join yaml_Http fs (base v) with
  | Conf.Returned c st => Done c (withBase st v)
  | Conf.Panicked st => Aborted (withBase st v)
  end.

(** GetDbConfig loads a database configuration from a yaml file when
    called the first time. *)
Definition GetDbConfig (fs : Conf.FileSystem) (v : Vars) : result DbConfig :=
  match dbConfig v with
  | Some c => Done c v
  | None =>
    let file := path_Join [Conf.resourcesPath (base v); dbConfigFile] in
    let v1 := withBase (Conf.logged (Conf.ReadFile file) (base v)) v in
    match fs file with
    | None => Aborted v1
    | Some content =>
      let v2 := withBase (Conf.logged (Conf.Unmarshal content) (base v1)) v1 in
      match yaml_Db content with
      | None => Aborted v2
      | Some doc =>
        let config := decodeDb doc in
        Done config {| base := base v2; dbConfig := Some config;
                       smtpCred := smtpCred v2 |}
      end
    end
  end.

(** GetSmtpCredentials loads the smtp access information from a yaml file
    when called the first time. *)
Definition GetSmtpCredentials (fs : Conf.FileSystem) (v : Vars)
  : result SmtpCredentials :=
  match smtpCred v with
  | Some c => Done c v
  | None =>
    let file := path_Join [Conf.resourcesPath (base v); serverConfigFile] in
    let v1 := withBase (Conf.logged (Conf.ReadFile file) (base v)) v in
    match fs file with
    | None => Aborted v1
    | Some content =>
      let v2 := withBase (Conf.logged (Conf.Unmarshal content) (base v1)) v1 in
      match yaml_Smtp content with
      | None => Aborted v2
      | Some doc =>
        let cred := decodeSmtp doc in
        Done cred {| base := base v2; dbConfig := dbConfig v2;
                     smtpCred := Some cred |}
      end
    end
  end.

(** GetResourceFile returns the path to a resource file using the global
    resource path. *)
Definition GetResourceFile (st : Conf.State) (p : list string) : string :=
  let tmp := [Conf.resourcesPath st] in
  let tmp := (tmp ++ p)%list in
  path_Join tmp.

(** GetClientsConfigFile returns the path to the clients configuration
    file. *)
Definition GetClientsConfigFile (st : Conf.State) : string :=
  path_Join [Conf.resourcesPath st; clientsConfigFile].

(** GetStaticFilesDir returns the path to the static files directory. *)
Definition GetStaticFilesDir (st : Conf.State) : string :=
  path_Join [Conf.resourcesPath st; staticFilesDir].

(** One call of a getter, its value wrapped. *)
Definition get (g : Getter) (fs : Conf.FileSystem) (v : Vars)
  : result Value :=
  match g with
  | Server =>
      match GetServerConfig fs v with
      | Done c v' => Done (ServerValue c) v'
      | Aborted v' => Aborted v'
      end
  | Db =>
      match GetDbConfig fs v with
      | Done c v' => Done (DbValue c) v'
      | Aborted v' => Aborted v'
      end
  | Smtp =>
      match GetSmtpCredentials fs v with
      | Done c v' => Done (SmtpValue c) v'
      | Aborted v' => Aborted v'
      end
  end.

(** A process: its calls one after the other; a panic ends it. The values
    the getters return are collected in call order, next to the final
    variables. *)
Fixpoint run (calls : list Call) (v : Vars) : list Value * Vars :=
  match calls with
  | [] => ([], v)
  | SetRes res :: rest =>
      run rest (withBase (Conf.SetResourcesPath res (base v)) v)
  | Get g fs :: rest =>
      match get g fs v with
      | Done x v' => let '(xs, v'') := run rest v' in (x :: xs, v'')
      | Aborted v' => ([], v')
      end
  end.

End Helpers.

(** Decoders that know a few contents, for running the model. *)
Definition overflowYaml : Conf.HttpYaml :=
  {| Conf.yaml_Host := Some "localhost"; Conf.yaml_Port := Some 80;
     Conf.yaml_BaseURL := None;
     Conf.yaml_SessionLifeTime := Some 153722868;
     Conf.yaml_TokenLifeTime := Some (-60);
     Conf.yaml_GrantReqLifeTime := None;
     Conf.yaml_CleanerInterval := None |}.

Definition sampleHttp (content : string) : option Conf.HttpYaml :=
  if decide (content = "Http: overflow") then Some overflowYaml
  else Conf.sampleUnmarshal content.

Definition sampleDb (content : string) : option DbYaml :=
  if decide (content = "driver: postgres")
  then Some {| yaml_driver := Some "postgres"; yaml_open := None |}
  else None.

Definition sampleSmtp (content : string) : option SmtpYaml :=
  if decide (content = "Http: sample")
  then Some {| yaml_From := Some "no-reply@g-node.org";
               yaml_Password := None; yaml_Host := Some "localhost";
               yaml_Port := Some 25; yaml_Mode := Some "print" |}
  else None.

End ConfPkg.

(* ===================================================================== *)
(** ** Package util, the dispatcher as its users see it *)
(* ===================================================================== *)

Module UtilMail.
Import Util.

(** EmailDispatcher defines an interface for e-mail dispatch. *)
Class EmailDispatcher (World T : Type) := {
  dispatch : T -> list string -> string -> World -> error * World
}.

#[global] Instance emailDispatcher_dispatch {World}
  : EmailDispatcher World (emailDispatcher World) :=
  {| dispatch := Send |}.

(** NewSmtpSendMailDispatcher returns an instance of emailDispatcher using
    smtp.SendMail as send function. *)
Definition NewSmtpSendMailDispatcher {World}
    (smtp_SendMail : SendFunc World) (conf : EmailConfig)
  : emailDispatcher World :=
  {| conf := conf; send := smtp_SendMail |}.

(** A user of the interface that sends its messages one after the other
    and keeps the errors. *)
Fixpoint sendAll {World T} `{EmailDispatcher World T} (d : T)
    (messages : list (list string * string)) (w : World)
  : list error * World :=
  match messages with
  | [] => ([], w)
  | (recipient, content) :: rest =>
      let '(err, w') := dispatch d recipient content w in
      let '(errs, w'') := sendAll d rest w' in
      (err :: errs, w'')
  end.

(** The call that reaches the send function for a message sent through a
    dispatcher configured with [cfg]. *)
Definition callFor (cfg : EmailConfig) (message : list string * string)
  : SendCall :=
  {| call_addr := Host cfg +:+ ":" +:+ Port cfg;
     call_auth := PlainAuth (Identity cfg) (Dispatcher cfg) (Password cfg)
                            (Host cfg);
     call_from := Dispatcher cfg;
     call_to := fst message;
     call_msg := snd message |}.

(** *** Reading a message back *)

Definition isLF (c : ascii) : bool := bool_decide (c = ascii_of_nat 10).

(** No line feed in a string. *)
Fixpoint oneLine (s : string) : bool :=
  match s with
  | EmptyString => true
  | String c r => negb (isLF c) && oneLine r
  end.

(** No comma in a string. *)
Fixpoint commaFree (s : string) : bool :=
  match s with
  | EmptyString => true
  | String c r => negb (bool_decide (c = ","%char)) && commaFree r
  end.

(** The first line of a text and what follows its line feed. *)
Fixpoint cutLine (s : string) : option (string * string) :=
  match s with
  | EmptyString => None
  | String c r =>
      if isLF c then Some ("", r)
      else match cutLine r with
           | Some (line, rest) => Some (String c line, rest)
           | None => None
           end
  end.

Fixpoint stripPrefix (p s : string) : option string :=
  match p, s with
  | EmptyString, _ => Some s
  | String a p', String b s' =>
      if bool_decide (a = b) then stripPrefix p' s' else None
  | String _ _, EmptyString => None
  end.

(** A text without the line feed it ends with. *)
Fixpoint chopLF (s : string) : option string :=
  match s with
  | EmptyString => None
  | String c r =>
      match r with
      | EmptyString => if isLF c then Some "" else None
      | _ => String c <$> chopLF r
      end
  end.

(** A reader of the header block: three header lines with their names, an
    empty line, the body up to the final line feed. *)
Definition readMessage (doc : string) : option Content :=
  '(l1, r1) ← cutLine doc;
  from ← stripPrefix "From: " l1;
  '(l2, r2) ← cutLine r1;
  to ← stripPrefix "To: " l2;
  '(l3, r3) ← cutLine r2;
  subj ← stripPrefix "Subject: " l3;
  '(l4, r4) ← cutLine r3;
  if decide (l4 = "") then
    messageBody ← chopLF r4;
    Some {| From := from; To := to; Subject := subj; Body := messageBody |}
  else None.

(** The recipients of a [To] header: its parts between comma-space. *)
Fixpoint splitRecipients (s : string) : list string :=
  match s with
  | EmptyString => [""]
  | String c r =>
      let keep (_ : unit) :=
        match splitRecipients r with
        | x :: xs => String c x :: xs
        | [] => [String c ""]
        end in
      match r with
      | String c' r' =>
          if bool_decide (c = ","%char) && bool_decide (c' = " "%char)
          then "" :: splitRecipients r'
          else keep tt
      | EmptyString => keep tt
      end
  end.

(** A sender with line feeds in it, for running the model. *)
Definition injectedSender : string :=
  "a@b" +:+ LF +:+ "To: eve@x" +:+ LF +:+ "Subject: hi" +:+ LF +:+ LF
  +:+ "evil".

End UtilMail.

(* ===================================================================== *)
(** ** Package conf in a process that recovers from panics *)
(* ===================================================================== *)

Module ConfRecover.
Import ConfPkg.

(** What one call of a getter did, as its caller sees it. *)
Record Outcome := {
  getter : Getter;
  returned : option Value;   (* [None]: the call panicked *)
  added : list Conf.Event    (* what the call added to the journal *)
}.

(** The events of [after] that [before] does not hold yet, newest
    first. *)
Definition newEvents (before after : list Conf.Event) : list Conf.Event :=
  take (length after - length before) after.

Definition hasReturned (o : Outcome) : bool :=
  match returned o with Some _ => true | None => false end.

(** The calls of [GetServerConfig] among the calls made. *)
Definition ofServer (os : list Outcome) : list Outcome :=
  List.filter (fun o => bool_decide (getter o = Server)) os.

(** How often files were read, and contents parsed, by the given calls. *)
Definition totalReads (os : list Outcome) : nat :=
  list_sum (map (fun o => countReads (added o)) os).

Definition totalParses (os : list Outcome) : nat :=
  list_sum (map (fun o => countParses (added o)) os).

(** A call that panicked after its one read. *)
Definition panickedCall (o : Outcome) : Prop :=
  returned o = None /\ countReads (added o) = 1%nat /\
  (countParses (added o) <= 1)%nat.

(** The call that loaded [c]: one read, one parse. *)
Definition loadingCall (c : Conf.ServerConfig) (o : Outcome) : Prop :=
  returned o = Some (ServerValue c) /\ countReads (added o) = 1%nat /\
  countParses (added o) = 1%nat.

(** A call that returned [c] and touched nothing. *)
Definition cachedCall (c : Conf.ServerConfig) (o : Outcome) : Prop :=
  returned o = Some (ServerValue c) /\ added o = [].

Section Recover.

Variable path_Join : list string -> string.
Variable yaml_Http : string -> option Conf.HttpYaml.
Variable yaml_Db : string -> option DbYaml.
Variable yaml_Smtp : string -> option SmtpYaml.

(** One call of a getter by a caller that recovers when it panics: the
    variables are as the call left them (the deferred [Unlock] has
    released the lock) and the process goes on. *)
Definition call (g : Getter) (fs : Conf.FileSystem) (v : Vars)
  : Outcome * Vars :=
  let r := get path_Join yaml_Http yaml_Db yaml_Smtp g fs v in
  ({| getter := g;
      returned := match r with Done x _ => Some x | Aborted _ => None end;
      added := newEvents (journalOf v) (journalOf (varsOf r)) |},
   varsOf r).

(** A process that recovers from every panic of a getter: all its calls
    are made, one after the other; what each call of a getter did is
    collected in call order, next to the final variables. *)
Fixpoint runRecovering (calls : list Call) (v : Vars)
  : list Outcome * Vars :=
  match calls with
  | [] => ([], v)
  | SetRes res :: rest =>
      runRecovering rest (withBase (Conf.SetResourcesPath res (base v)) v)
  | Get g fs :: rest =>
      let '(o, v') := call g fs v in
      let '(os, v'') := runRecovering rest v' in
      (o :: os, v'')
  end.

End Recover.

End ConfRecover.

(* ===================================================================== *)
(** ** Properties of package conf *)
(* ===================================================================== *)

Module ConfProofs.
Import Conf.

Lemma wrap64_fits z : fitsInt64 z -> wrap64 z = z.
Proof.
  unfold fitsInt64, wrap64. intros Hz.
  rewrite Z.mod_small by lia. lia.
Qed.

Lemma Duration_mul_minutes n :
  fitsInt64 (n * Minute) -> Duration_mul n Minute = n * Minute.
Proof. intros Hn. unfold Duration_mul. now apply wrap64_fits. Qed.

(** [%d] prints a numeral that reads back as the number printed. *)
Lemma fmt_d_reads_back n :
  Z.of_int <$> NilZero.int_of_string (fmt_d n) = Some n.
Proof.
  unfold fmt_d. rewrite NilZero.isi.
  - simpl. f_equal. apply DecimalZ.of_to.
  - destruct n as [|p|p]; simpl; try discriminate.
    intros [= Hp]. now apply (DecimalPos.Unsigned.to_uint_nonnil p).
  - destruct n as [|p|p]; simpl; try discriminate.
    intros [= Hp]. now apply (DecimalPos.Unsigned.to_uint_nonnil p).
Qed.

Lemma fmt_d_inj n m : fmt_d n = fmt_d m -> n = m.
Proof.
  intros E. pose proof (fmt_d_reads_back n) as Hn.
  rewrite E, fmt_d_reads_back in Hn. congruence.
Qed.

Section Calls.

Variable path_Join : list string -> string.
Variable yaml_Unmarshal : string -> option HttpYaml.

Local Abbreviation GetServerConfig := (GetServerConfig path_Join yaml_Unmarshal).
Local Abbreviation process := (process path_Join yaml_Unmarshal).
Local Abbreviation configFile st :=
  (path_Join [resourcesPath st; serverConfigFile path_Join]).

(** The first call that finds a readable, well-formed file. *)
Lemma GetServerConfig_first fs st content doc :
  serverConfig st = None ->
  fs (configFile st) = Some content ->
  yaml_Unmarshal content = Some doc ->
  GetServerConfig fs st =
    Returned (loadServerConfig doc)
      {| resourcesPath := resourcesPath st;
         serverConfig := Some (loadServerConfig doc);
         journal := Unmarshal content :: ReadFile (configFile st)
                      :: journal st |}.
Proof.
  intros Hnil Hfs Hdoc. unfold GetServerConfig.
  rewrite Hnil. simpl. now rewrite Hfs, Hdoc.
Qed.

(** Once the variable is set a call returns it and touches nothing. *)
Lemma GetServerConfig_loaded fs st c :
  serverConfig st = Some c -> GetServerConfig fs st = Returned c st.
Proof. intros Hc. unfold GetServerConfig. now rewrite Hc. Qed.

Lemma GetServerConfig_returns fs st c st' :
  GetServerConfig fs st = Returned c st' -> serverConfig st' = Some c.
Proof.
  unfold GetServerConfig.
  destruct (serverConfig st) as [c0|] eqn:Hc.
  - now intros [= <- <-].
  - simpl. destruct (fs _); [|discriminate].
    destruct (yaml_Unmarshal _); [|discriminate].
    now intros [= <- <-].
Qed.

Lemma process_loaded ops : forall st c,
  serverConfig st = Some c ->
  Forall (fun c' => c' = c) (fst (process ops st)) /\
  serverConfig (snd (process ops st)) = Some c /\
  journal (snd (process ops st)) = journal st.
Proof.
  induction ops as [|[fs|res] rest IH]; intros st c Hc; simpl.
  - auto.
  - rewrite (GetServerConfig_loaded fs st c Hc).
    destruct (IH st c Hc) as (Hall & Hcfg & Hj).
    destruct (process rest st) as [cs st'']; simpl in *.
    auto.
  - apply (IH (SetResourcesPath res st) c Hc).
Qed.

Lemma process_unloaded ops : forall st,
  serverConfig st = None ->
  let cs := fst (process ops st) in
  let st' := snd (process ops st) in
  (exists evs, loadEvents evs /\ journal st' = (evs ++ journal st)%list) /\
  Forall (fun c => head cs = Some c) cs /\
  (cs = [] \/ serverConfig st' = head cs).
Proof.
  induction ops as [|[fs|res] rest IH]; intros st Hnil; simpl.
  - split; [exists []; split; [constructor | reflexivity] |].
    split; [constructor | now left].
  - unfold Conf.GetServerConfig. rewrite Hnil. simpl.
    destruct (fs _) as [content|]; simpl.
    2: { split; [eexists [_]; split; [constructor | reflexivity] |].
         split; [constructor | now left]. }
    destruct (yaml_Unmarshal content) as [doc|]; simpl.
    2: { split; [eexists [_; _]; split; [constructor | reflexivity] |].
         split; [constructor | now left]. }
    set (c := loadServerConfig doc).
    match goal with |- context [process rest ?s] => set (st1 := s) end.
    destruct (process_loaded rest st1 c eq_refl) as (Hall & Hcfg & Hj).
    destruct (process rest st1) as [cs st'']; simpl in *.
    split; [|split].
    + eexists [_; _]. split; [constructor | now rewrite Hj].
    + constructor; [reflexivity|].
      eapply Forall_impl; [exact Hall|]. now intros ? ->.
    + now right.
  - apply (IH (SetResourcesPath res st) Hnil).
Qed.

Lemma loadEvents_counts evs :
  loadEvents evs ->
  (length (List.filter isReadFile evs) <= 1)%nat /\
  (length (List.filter isUnmarshal evs) <= 1)%nat.
Proof. destruct 1; simpl; lia. Qed.

(** C3. If the server YAML leaves out [SessionLifeTime], [TokenLifeTime],
    [GrantReqLifeTime] or [CleanerInterval], or gives it as zero, the
    [ServerConfig] that [GetServerConfig] returns has that field equal to
    2880, 1440, 15 and 15 minutes respectively, that is 48 h, 24 h, 15 min
    and 15 min. A key given as a non-zero integer [n] yields [n] minutes
    (the product with [time.Minute], exact as long as it fits [int64]). *)
Theorem GetServerConfig_default_lifetimes fs st content doc :
  serverConfig st = None ->
  fs (configFile st) = Some content ->
  yaml_Unmarshal content = Some doc ->
  exists c st',
    GetServerConfig fs st = Returned c st' /\
    (omitsOrZero (yaml_SessionLifeTime doc) ->
       SessionLifeTime c = 2880 * Minute) /\
    (omitsOrZero (yaml_TokenLifeTime doc) ->
       TokenLifeTime c = 1440 * Minute) /\
    (omitsOrZero (yaml_GrantReqLifeTime doc) ->
       GrantReqLifeTime c = 15 * Minute) /\
    (omitsOrZero (yaml_CleanerInterval doc) ->
       CleanerInterval c = 15 * Minute) /\
    (2880 * Minute = 48 * Hour /\ 1440 * Minute = 24 * Hour) /\
    (forall n, configured (yaml_SessionLifeTime doc) n ->
       fitsInt64 (n * Minute) -> SessionLifeTime c = n * Minute) /\
    (forall n, configured (yaml_TokenLifeTime doc) n ->
       fitsInt64 (n * Minute) -> TokenLifeTime c = n * Minute) /\
    (forall n, configured (yaml_GrantReqLifeTime doc) n ->
       fitsInt64 (n * Minute) -> GrantReqLifeTime c = n * Minute) /\
    (forall n, configured (yaml_CleanerInterval doc) n ->
       fitsInt64 (n * Minute) -> CleanerInterval c = n * Minute).
Proof.
  intros Hnil Hfs Hdoc.
  eexists _, _.
  split; [exact (GetServerConfig_first fs st content doc Hnil Hfs Hdoc)|].
  unfold loadServerConfig, omitsOrZero, configured. simpl.
  repeat split.
  1-4: intros [-> | ->]; reflexivity.
  all: intros n [-> Hn] Hfit; simpl;
       destruct (decide (n = 0)); [contradiction|];
       now apply Duration_mul_minutes.
Qed.

(** C10. If the configured [BaseURL] is empty, [GetServerConfig] sets it to
    [http://<Host>:<Port>], except when [Port] equals 80, in which case it
    is [http://<Host>]; a non-empty configured [BaseURL] is returned
    unchanged. *)
Theorem GetServerConfig_BaseURL fs st content doc :
  serverConfig st = None ->
  fs (configFile st) = Some content ->
  yaml_Unmarshal content = Some doc ->
  let host := default "" (yaml_Host doc) in
  let port := default 0 (yaml_Port doc) in
  let baseURL := default "" (yaml_BaseURL doc) in
  exists c st',
    GetServerConfig fs st = Returned c st' /\
    Host c = host /\ Port c = port /\
    (baseURL <> "" -> BaseURL c = baseURL) /\
    (baseURL = "" -> port = 80 -> BaseURL c = "http://" +:+ host) /\
    (baseURL = "" -> port <> 80 ->
       BaseURL c = "http://" +:+ host +:+ ":" +:+ fmt_d port).
Proof.
  intros Hnil Hfs Hdoc host port baseURL.
  eexists _, _.
  split; [exact (GetServerConfig_first fs st content doc Hnil Hfs Hdoc)|].
  unfold loadServerConfig. simpl. fold host port baseURL.
  repeat split; intros; repeat case_decide; congruence.
Qed.

(** In a process that a panic ends (no panic is recovered): whatever the
    process does with the package, and however the files change in the
    meantime, the configuration file is read at most once and parsed at
    most once, every call returns the value that the first call returned,
    and that value is still the one held by [serverConfig] at the end.
    From any state, a call that follows a call that returned returns the
    same value and leaves the state, journal included, as it is. *)
Theorem GetServerConfig_loads_once res ops fs fs' st0 :
  let cs := fst (process ops (initial res)) in
  let st := snd (process ops (initial res)) in
  (length (List.filter isReadFile (journal st)) <= 1)%nat /\
  (length (List.filter isUnmarshal (journal st)) <= 1)%nat /\
  Forall (fun c => head cs = Some c) cs /\
  (cs = [] \/ serverConfig st = head cs) /\
  match GetServerConfig fs st0 with
  | Returned c st1 => GetServerConfig fs' st1 = Returned c st1
  | Panicked _ => True
  end.
Proof.
  destruct (process_unloaded ops (initial res) eq_refl)
    as ((evs & Hevs & Hj) & Hall & Hcfg).
  cbv zeta. rewrite Hj. simpl. rewrite app_nil_r.
  destruct (loadEvents_counts evs Hevs).
  repeat split; auto.
  destruct (GetServerConfig fs st0) as [c st1|st1] eqn:Hcall; [|exact I].
  apply GetServerConfig_loaded.
  now apply (GetServerConfig_returns fs st0).
Qed.


End Calls.

(** An instance of the default life times: an empty YAML file. *)
Lemma GetServerConfig_default_lifetimes_witness :
  exists c st',
    GetServerConfig sampleJoin sampleUnmarshal (sampleFiles "")
      (initial "res") = Returned c st' /\
    SessionLifeTime c = 172800000000000 /\
    TokenLifeTime c = 86400000000000 /\
    GrantReqLifeTime c = 900000000000 /\
    CleanerInterval c = 900000000000.
Proof.
  destruct (GetServerConfig_default_lifetimes sampleJoin sampleUnmarshal
              (sampleFiles "") (initial "res") "" emptyYaml
              eq_refl eq_refl eq_refl)
    as (c & st' & Hcall & Hs & Ht & Hg & Hc & _).
  exists c, st'. split; [exact Hcall|].
  rewrite Hs, Ht, Hg, Hc by (left; reflexivity).
  repeat split.
Defined.

(** An instance of the base URL: host and port without a base URL. *)
Lemma GetServerConfig_BaseURL_witness :
  exists c st',
    GetServerConfig sampleJoin sampleUnmarshal (sampleFiles "Http: sample")
      (initial "res") = Returned c st' /\
    BaseURL c = "http://localhost:8081".
Proof.
  destruct (GetServerConfig_BaseURL sampleJoin sampleUnmarshal
              (sampleFiles "Http: sample") (initial "res") "Http: sample"
              sampleYaml eq_refl eq_refl eq_refl)
    as (c & st' & Hcall & _ & _ & _ & _ & Hurl).
  exists c, st'. split; [exact Hcall|].
  rewrite Hurl; [reflexivity | reflexivity | discriminate].
Defined.

End ConfProofs.

(* ===================================================================== *)
(** ** Properties of package util *)
(* ===================================================================== *)

Module UtilProofs.
Import Util.

Lemma append_assoc (a b c : string) : (a +:+ b) +:+ c = a +:+ (b +:+ c).
Proof.
  induction a as [|x a IH]; [reflexivity|].
  change (String x ((a +:+ b) +:+ c) = String x (a +:+ (b +:+ c))).
  now f_equal.
Qed.

Lemma append_empty_r (a : string) : a +:+ "" = a.
Proof.
  induction a as [|x a IH]; [reflexivity|].
  change (String x (a +:+ "") = String x a). now f_equal.
Qed.

(** [Join] puts the separator between neighbours only. *)
Lemma Join_cons x y rest sep :
  Join (x :: y :: rest) sep = x +:+ sep +:+ Join (y :: rest) sep.
Proof. reflexivity. Qed.

(** The constant template parses, into four fields between five texts. *)
Lemma Parse_emailTemplate :
  Parse emailTemplate =
    Some [ TextNode "From: "; FieldNode "From";
           TextNode (LF +:+ "To: "); FieldNode "To";
           TextNode (LF +:+ "Subject: "); FieldNode "Subject";
           TextNode (LF +:+ LF); FieldNode "Body";
           TextNode LF ].
Proof. vm_compute. reflexivity. Qed.

(** Executing it over any content writes the header block and the body
    behind what the buffer holds. *)
Lemma Execute_emailTemplate t c doc :
  Parse emailTemplate = Some t ->
  Execute t c doc =
    Some (doc +:+ unlines [ "From: " +:+ From c; "To: " +:+ To c;
                            "Subject: " +:+ Subject c; ""; Body c ]).
Proof.
  rewrite Parse_emailTemplate. intros [= <-].
  cbn [Execute]. unfold fieldByName.
  repeat (case_decide; [|try discriminate; try congruence];
          try discriminate).
  unfold unlines. cbn [fold_right].
  rewrite !append_assoc, append_empty_r. reflexivity.
Qed.

(** C6. For every from string, recipient list, subject and body,
    [MakePlainEmailTemplate] returns a buffer whose contents are exactly
    the lines [From: <from>], [To: <recipients joined by comma-space>],
    [Subject: <subject>], a blank line, then the body followed by a
    newline. *)
Theorem MakePlainEmailTemplate_contents from to subj messageBody :
  MakePlainEmailTemplate from to subj messageBody =
    Ok (unlines [ "From: " +:+ from;
                  "To: " +:+ Join to ", ";
                  "Subject: " +:+ subj;
                  "";
                  messageBody ]) /\
  unlines [ "From: " +:+ from; "To: " +:+ Join to ", ";
            "Subject: " +:+ subj; ""; messageBody ] =
    "From: " +:+ from +:+ LF +:+
    "To: " +:+ Join to ", " +:+ LF +:+
    "Subject: " +:+ subj +:+ LF +:+
    LF +:+
    messageBody +:+ LF.
Proof.
  split.
  - unfold MakePlainEmailTemplate.
    destruct (Parse emailTemplate) as [t|] eqn:Ht;
      [|now rewrite Parse_emailTemplate in Ht].
    now rewrite (Execute_emailTemplate t _ "" Ht).
  - unfold unlines. cbn [fold_right].
    now rewrite !append_assoc, append_empty_r.
Qed.

(** C8. [MakePlainEmailTemplate] never panics: for all string inputs the
    constant template parses and its execution over the content struct
    succeeds, so neither of the two panics is raised. *)
Theorem MakePlainEmailTemplate_never_panics from to subj messageBody :
  (exists t, Parse emailTemplate = Some t /\
     forall c doc, is_Some (Execute t c doc)) /\
  (exists doc, MakePlainEmailTemplate from to subj messageBody = Ok doc) /\
  MakePlainEmailTemplate from to subj messageBody
    <> Panic "Error parsing e-mail template" /\
  MakePlainEmailTemplate from to subj messageBody
    <> Panic "Error executing e-mail template".
Proof.
  assert (Hrun : exists doc,
    MakePlainEmailTemplate from to subj messageBody = Ok doc).
  { unfold MakePlainEmailTemplate.
    destruct (Parse emailTemplate) as [t|] eqn:Ht;
      [|now rewrite Parse_emailTemplate in Ht].
    rewrite (Execute_emailTemplate t _ "" Ht). eauto. }
  split; [|split; [exact Hrun|]].
  - eexists. split; [exact Parse_emailTemplate|].
    intros c doc.
    rewrite (Execute_emailTemplate _ c doc Parse_emailTemplate). eauto.
  - destruct Hrun as [doc ->]. split; discriminate.
Qed.

(** C7. [emailDispatcher.Send] invokes the injected send function exactly
    once, with server address [conf.Host + ":" + conf.Port] and sender
    [conf.Dispatcher], passing the recipient list and message bytes through
    unchanged, and returns exactly the error (nil or not) returned by that
    send function. *)
Theorem Send_invokes_send_once {World} (cfg : EmailConfig)
    (f : SendFunc World) (recipient : list string) (content : string)
    (w : World) (before : list SendCall) :
  let addr := Host cfg +:+ ":" +:+ Port cfg in
  let auth := PlainAuth (Identity cfg) (Dispatcher cfg) (Password cfg)
                        (Host cfg) in
  let result := f addr auth (Dispatcher cfg) recipient content w in
  Send {| conf := cfg; send := recording f |} recipient content (w, before)
  = (fst result,
     (snd result,
      (before ++ [ {| call_addr := addr; call_auth := auth;
                      call_from := Dispatcher cfg; call_to := recipient;
                      call_msg := content |} ])%list)) /\
  Send {| conf := cfg; send := f |} recipient content w = result.
Proof.
  intros addr auth result. split; [|reflexivity].
  unfold Send, recording. simpl. fold addr auth result.
  now destruct result.
Qed.

End UtilProofs.

(* ===================================================================== *)
(** ** Properties of the admission and of the account API *)
(* ===================================================================== *)

Module WebProofs.
Import Web.

Lemma RequireScope_admin (sc : Scope) :
  RequireScope sc {[accountAdmin]} = None <-> accountAdmin ∈ sc.
Proof.
  unfold RequireScope. case_decide as Hsub.
  - split; [intros _; set_solver | reflexivity].
  - split; [discriminate | intros Hin; exfalso; apply Hsub; set_solver].
Qed.

(** A token that [Validate] accepts stays in the store, which is left as
    it was. *)
Lemma Validate_accepts now bearer (tokens : gmap string AccessToken) p sc :
  fst (Validate now bearer tokens) = inr (p, sc) ->
  Validate now bearer tokens = (inr (p, sc), tokens) /\
  exists t, tokens !! bearer = Some t /\ now < createdAt t + lifetime t /\
            p = subject t /\ sc = scope t.
Proof.
  unfold Validate. destruct (tokens !! bearer) as [t|]; [|discriminate].
  case_decide as Hexp; [discriminate|]. simpl. intros [= <- <-].
  split; [reflexivity|]. exists t. repeat split; lia.
Qed.

(** An expired token is deleted and the caller is [Unauthenticated]. *)
Lemma Validate_expired now bearer (tokens : gmap string AccessToken) t :
  tokens !! bearer = Some t ->
  createdAt t + lifetime t <= now ->
  Validate now bearer tokens = (inl Unauthenticated, delete bearer tokens).
Proof.
  intros Ht Hexp. unfold Validate. rewrite Ht. now case_decide.
Qed.

Section Handlers.

Variable Hash : string -> string.
Variable passwordChangeOk : Account -> PasswordUpdate -> bool.

Local Abbreviation ServeHTTP := (ServeHTTP Hash passwordChangeOk).
Local Abbreviation handle := (handle Hash passwordChangeOk).

(** Past admission a request is answered by the lookup of the account its
    path names, the access rule and the handler, in this order. *)
Lemma ServeHTTP_admitted now st e bearer p sc :
  fst (Validate now bearer (tokens st)) = inr (p, sc) ->
  ServeHTTP now (bearerRequest e bearer) st =
    let target := targetLogin e ≫= (accounts st !!.) in
    match targetLogin e, target with
    | Some _, None => (failWith NotFound, st)
    | _, _ => if authorized e p sc target then handle e target st
              else (failWith Forbidden, st)
    end.
Proof.
  intros Hv. apply Validate_accepts in Hv as [Hv _].
  unfold Web.ServeHTTP. simpl. rewrite Hv. now destruct st.
Qed.

Lemma isSelf_true p a : isSelf p a = true <-> p = AccountPrincipal (uuid a).
Proof. unfold isSelf. apply bool_decide_eq_true. Qed.

Lemma refused_not_authorized e p sc st :
  refused e p sc st ->
  exists target, targetLogin e ≫= (accounts st !!.) = target /\
    (targetLogin e = None \/ is_Some target) /\
    authorized e p sc target = false.
Proof.
  assert (Hadmin : accountAdmin ∉ sc ->
            bool_decide (RequireScope sc {[accountAdmin]} = None) = false).
  { intros Hn. apply bool_decide_eq_false. now rewrite RequireScope_admin. }
  assert (Hself : forall a, p <> AccountPrincipal (uuid a) ->
            isSelf p a = false).
  { intros a Hne. apply not_true_is_false. now rewrite isSelf_true. }
  destruct e as [|l|l u|l u]; simpl.
  - intros Hn. eexists. split; [reflexivity|]. split; [now left|].
    now apply Hadmin.
  - intros [(l' & a & [= <-] & Ha & Hne) Hn]. exists (Some a).
    rewrite Ha. repeat split; eauto.
    now rewrite Hself, Hadmin.
  - intros (l' & a & [= <-] & Ha & Hne). exists (Some a).
    rewrite Ha. repeat split; eauto.
  - intros (l' & a & [= <-] & Ha & Hne). exists (Some a).
    rewrite Ha. repeat split; eauto.
Qed.

(** C1. For every access token whose [createdAt + lifetime] is less than
    or equal to [now] (also at exactly [createdAt + lifetime]), [Validate]
    returns [Unauthenticated] and deletes the token, so every
    bearer-authenticated endpoint presented with such a token responds
    HTTP 401. *)
Theorem expired_token_is_unauthenticated now st bearer t e :
  tokens st !! bearer = Some t ->
  createdAt t + lifetime t <= now ->
  Validate now bearer (tokens st)
    = (inl Unauthenticated, delete bearer (tokens st)) /\
  Validate (createdAt t + lifetime t) bearer (tokens st)
    = (inl Unauthenticated, delete bearer (tokens st)) /\
  delete bearer (tokens st) !! bearer = None /\
  ServeHTTP now (bearerRequest e bearer) st
    = ({| Code := 401; body := ErrorBody Unauthenticated |},
       {| tokens := delete bearer (tokens st); accounts := accounts st |}).
Proof.
  intros Ht Hexp.
  pose proof (Validate_expired now bearer (tokens st) t Ht Hexp) as Hv.
  split; [exact Hv|]. split; [apply (Validate_expired _ _ _ t Ht); lia|].
  split; [apply lookup_delete_eq|].
  unfold Web.ServeHTTP. simpl. now rewrite Hv.
Qed.

(** C2, as amended. For every request carrying a valid access token that
    the access rule of the endpoint refuses (the scope lacks
    [account-admin] on the list of accounts; the path names an existing
    account other than the principal's own on the updates, and on reading
    an account unless the scope has [account-admin]) the service responds
    HTTP 401, never 403: the [Forbidden] error kind maps to status 401. *)
Theorem forbidden_is_401 now st e bearer p sc :
  fst (Validate now bearer (tokens st)) = inr (p, sc) ->
  refused e p sc st ->
  ServeHTTP now (bearerRequest e bearer) st = (failWith Forbidden, st) /\
  Code (fst (ServeHTTP now (bearerRequest e bearer) st)) = 401 /\
  Code (fst (ServeHTTP now (bearerRequest e bearer) st)) <> 403 /\
  httpStatus Forbidden = 401.
Proof.
  intros Hv Href.
  rewrite (ServeHTTP_admitted now st e bearer p sc Hv). cbv zeta.
  destruct (refused_not_authorized e p sc st Href)
    as (target & -> & Htarget & ->).
  assert (Hgoal : match targetLogin e, target with
                  | Some _, None => (failWith NotFound, st)
                  | _, _ => (failWith Forbidden, st)
                  end = (failWith Forbidden, st)).
  { destruct Htarget as [-> | [a ->]]; [reflexivity|].
    now destruct (targetLogin e). }
  rewrite Hgoal. simpl. repeat split; discriminate.
Qed.

(** C5. Under a valid bearer token, [GET /api/accounts/:login] returns
    HTTP 200 with that account's data when the principal is the account
    itself or the token carries scope [account-admin]; when no account
    with that login exists it returns HTTP 404. *)
Theorem GetAccount_read now st bearer p sc l :
  fst (Validate now bearer (tokens st)) = inr (p, sc) ->
  (forall a, accounts st !! l = Some a ->
     p = AccountPrincipal (uuid a) \/ accountAdmin ∈ sc ->
     ServeHTTP now (bearerRequest (GetAccount l) bearer) st
       = ({| Code := 200; body := AccountBody a |}, st)) /\
  (accounts st !! l = None ->
     ServeHTTP now (bearerRequest (GetAccount l) bearer) st
       = ({| Code := 404; body := ErrorBody NotFound |}, st)).
Proof.
  intros Hv.
  rewrite (ServeHTTP_admitted now st (GetAccount l) bearer p sc Hv).
  simpl. split.
  - intros a Ha Hrule. rewrite Ha. simpl.
    assert (Hauth : isSelf p a
              || bool_decide (RequireScope sc {[accountAdmin]} = None)
              = true).
    { apply orb_true_iff. destruct Hrule as [Hp | Hadm].
      - left. now apply isSelf_true.
      - right. apply bool_decide_eq_true. now apply RequireScope_admin. }
    now rewrite Hauth.
  - intros Hnone. now rewrite Hnone.
Qed.

End Handlers.

(** *** The model on the fixture *)

(** The requests of [TestGetAccount], in order: no authorization header,
    wrong token, expired token, non existing account, not own account, own
    account, token with admin scope. *)
Example TestGetAccount_replay :
  map fixtureCode
    [ anonymousRequest (GetAccount "alice");
      bearerRequest (GetAccount "alice") "doesnotexist";
      bearerRequest (GetAccount "bob") accessTokenBob;
      bearerRequest (GetAccount "foo") accessTokenAlice;
      bearerRequest (GetAccount "bob") accessTokenAlice;
      bearerRequest (GetAccount "alice") accessTokenAlice;
      bearerRequest (GetAccount "bob") accessTokenAliceAdmin ]
  = [401; 401; 401; 404; 401; 200; 200].
Proof. vm_compute. reflexivity. Qed.

(** The requests of [TestListAccounts]: no authorization header, wrong
    token, insufficient scope, all ok. *)
Example TestListAccounts_replay :
  map fixtureCode
    [ anonymousRequest ListAccounts;
      bearerRequest ListAccounts "doesnotexist";
      bearerRequest ListAccounts accessTokenAlice;
      bearerRequest ListAccounts accessTokenAliceAdmin ]
  = [401; 401; 401; 200] /\
  body (fst (ServeHTTP toyHash toyPasswordChangeOk fixtureNow
               (bearerRequest ListAccounts accessTokenAliceAdmin) fixture))
  = AccountsBody [alice; bob].
Proof. vm_compute. split; reflexivity. Qed.

(** The requests of [TestUpdateAccount]: no authorization header, wrong
    token, wrong account, own account. *)
Example TestUpdateAccount_replay :
  map fixtureCode
    [ anonymousRequest (UpdateAccount "alice" bodyAlix);
      bearerRequest (UpdateAccount "alice" bodyAlix) "doesnotexist";
      bearerRequest (UpdateAccount "bob" bodyAlix) accessTokenAlice;
      bearerRequest (UpdateAccount "alice" bodyAlix) accessTokenAlice ]
  = [401; 401; 401; 200].
Proof. vm_compute. reflexivity. Qed.

(** The requests of [TestUpdateAccountPassword]: no authorization header,
    wrong token, wrong account, wrong password, too short password, wrong
    repeated password, all ok. *)
Example TestUpdateAccountPassword_replay :
  map fixtureCode
    [ anonymousRequest
        (UpdateAccountPassword "alice" (mkBody "testtest" "TestTest" "TestTest"));
      bearerRequest
        (UpdateAccountPassword "alice" (mkBody "testtest" "TestTest" "TestTest"))
        "doesnotexist";
      bearerRequest
        (UpdateAccountPassword "bob" (mkBody "testtest" "TestTest" "TestTest"))
        accessTokenAlice;
      bearerRequest
        (UpdateAccountPassword "alice" (mkBody "WRONG!" "TestTest" "TestTest"))
        accessTokenAlice;
      bearerRequest
        (UpdateAccountPassword "alice" (mkBody "testtest" "Test" "Test"))
        accessTokenAlice;
      bearerRequest
        (UpdateAccountPassword "alice" (mkBody "testtest" "TestTest" "TestFooo"))
        accessTokenAlice;
      bearerRequest
        (UpdateAccountPassword "alice" (mkBody "testtest" "TestTest" "TestTest"))
        accessTokenAlice ]
  = [401; 401; 401; 400; 400; 400; 200].
Proof. vm_compute. reflexivity. Qed.

Lemma fixture_validates_alice :
  fst (Validate fixtureNow accessTokenAlice (tokens fixture))
  = inr (AccountPrincipal uuidAlice, scope tokenAlice).
Proof. vm_compute. reflexivity. Defined.

Lemma fixture_validates_admin :
  fst (Validate fixtureNow accessTokenAliceAdmin (tokens fixture))
  = inr (AccountPrincipal uuidAlice, scope tokenAliceAdmin).
Proof. vm_compute. reflexivity. Defined.

Lemma alice_is_not_bob :
  targetsOtherAccount (GetAccount "bob") (AccountPrincipal uuidAlice) fixture.
Proof.
  exists "bob", bob. split; [reflexivity|].
  split; [vm_compute; reflexivity | vm_compute; discriminate].
Defined.

(** The expired token of bob, presented at the very second it expires. *)
Lemma expired_token_is_unauthenticated_witness :
  Code (fst (ServeHTTP toyHash toyPasswordChangeOk 96400
               (bearerRequest (GetAccount "bob") accessTokenBob) fixture))
  = 401 /\
  tokens (snd (ServeHTTP toyHash toyPasswordChangeOk 96400
                 (bearerRequest (GetAccount "bob") accessTokenBob) fixture))
    !! accessTokenBob = None.
Proof.
  destruct (expired_token_is_unauthenticated toyHash toyPasswordChangeOk
              96400 fixture accessTokenBob tokenBob (GetAccount "bob")
              ltac:(vm_compute; reflexivity) ltac:(simpl; lia))
    as (_ & _ & Hgone & ->).
  split; [reflexivity | exact Hgone].
Defined.

(** C2, as stated, fails: the token of alice with scope [account-admin] is
    valid and [GET /api/accounts/bob] targets an account other than her
    own, yet the response is HTTP 200 (the last request of
    [TestGetAccount]). *)
Lemma admin_reads_other_account_counterexample :
  fst (Validate fixtureNow accessTokenAliceAdmin (tokens fixture))
    = inr (AccountPrincipal uuidAlice, scope tokenAliceAdmin) /\
  targetsOtherAccount (GetAccount "bob") (AccountPrincipal uuidAlice)
    fixture /\
  Code (fst (ServeHTTP toyHash toyPasswordChangeOk fixtureNow
               (bearerRequest (GetAccount "bob") accessTokenAliceAdmin)
               fixture)) = 200 /\
  Code (fst (ServeHTTP toyHash toyPasswordChangeOk fixtureNow
               (bearerRequest (GetAccount "bob") accessTokenAliceAdmin)
               fixture)) <> 401.
Proof.
  split; [exact fixture_validates_admin|].
  split; [exact alice_is_not_bob|].
  vm_compute. split; [reflexivity | discriminate].
Qed.

(** Alice's plain token on bob's account: refused with 401. *)
Lemma forbidden_is_401_witness :
  ServeHTTP toyHash toyPasswordChangeOk fixtureNow
    (bearerRequest (GetAccount "bob") accessTokenAlice) fixture
  = ({| Code := 401; body := ErrorBody Forbidden |}, fixture).
Proof.
  refine (proj1 (forbidden_is_401 toyHash toyPasswordChangeOk fixtureNow
                   fixture
                   (GetAccount "bob") accessTokenAlice
                   (AccountPrincipal uuidAlice) (scope tokenAlice)
                   fixture_validates_alice _)).
  split; [exact alice_is_not_bob|].
  apply (bool_decide_eq_false_1 _). vm_compute. reflexivity.
Defined.

(** The admin token of alice reads bob's account. *)
Lemma GetAccount_read_witness :
  ServeHTTP toyHash toyPasswordChangeOk fixtureNow
    (bearerRequest (GetAccount "bob") accessTokenAliceAdmin) fixture
  = ({| Code := 200; body := AccountBody bob |}, fixture).
Proof.
  refine (proj1 (GetAccount_read toyHash toyPasswordChangeOk fixtureNow
                   fixture
                   accessTokenAliceAdmin (AccountPrincipal uuidAlice)
                   (scope tokenAliceAdmin) "bob" fixture_validates_admin)
                bob _ _).
  - vm_compute. reflexivity.
  - right. apply (bool_decide_eq_true_1 _). vm_compute. reflexivity.
Defined.

End WebProofs.

(* ===================================================================== *)
(** ** Further properties of package conf *)
(* ===================================================================== *)

Module ConfMoreProofs.
Import Conf.

Lemma wrap64_range z : fitsInt64 (wrap64 z).
Proof.
  unfold fitsInt64, wrap64.
  pose proof (Z.mod_pos_bound (z + 2 ^ 63) (2 ^ 64) ltac:(lia)). lia.
Qed.

Lemma Minute_value : Minute = 60000000000.
Proof. reflexivity. Qed.

(** The product with [time.Minute] is the number of minutes exactly when
    that number is at most 153722867 in absolute value. *)
Lemma Duration_mul_exact_iff n :
  Duration_mul n Minute = n * Minute <-> -153722867 <= n <= 153722867.
Proof.
  split.
  - intros Hex. pose proof (wrap64_range (n * Minute)) as Hfit.
    unfold Duration_mul in Hex. rewrite Hex in Hfit.
    unfold fitsInt64 in Hfit. rewrite Minute_value in Hfit. lia.
  - intros Hn. apply ConfProofs.Duration_mul_minutes.
    unfold fitsInt64. rewrite Minute_value. lia.
Qed.

Lemma BaseURL_loaded_nonempty doc : BaseURL (loadServerConfig doc) <> "".
Proof.
  unfold loadServerConfig. simpl.
  repeat case_decide; try assumption; discriminate.
Qed.

Lemma append_length a b :
  String.length (a +:+ b) = (String.length a + String.length b)%nat.
Proof. induction a as [|x a IH]; simpl; [reflexivity | now rewrite IH]. Qed.

Section Calls.

Variable path_Join : list string -> string.
Variable yaml_Unmarshal : string -> option HttpYaml.

Local Abbreviation GetServerConfig := (GetServerConfig path_Join yaml_Unmarshal).
Local Abbreviation process := (process path_Join yaml_Unmarshal).
Local Abbreviation configFile st :=
  (path_Join [resourcesPath st; serverConfigFile path_Join]).

(** X1. A call of [GetServerConfig] that panics has found the variable
    unset and the file unreadable or its content not well-formed; it
    leaves the variable unset (the failure is not remembered) and the
    journal one read, and in the second case one parse, longer. A later
    call that finds a well-formed file reads it and returns its
    configuration. *)
Theorem GetServerConfig_panic_not_cached fs st st' :
  GetServerConfig fs st = Panicked st' ->
  serverConfig st = None /\
  serverConfig st' = None /\
  resourcesPath st' = resourcesPath st /\
  (fs (configFile st) = None /\
     journal st' = ReadFile (configFile st) :: journal st
   \/ exists content,
        fs (configFile st) = Some content /\
        yaml_Unmarshal content = None /\
        journal st' = Unmarshal content :: ReadFile (configFile st)
                        :: journal st) /\
  forall fs' content doc,
    fs' (configFile st) = Some content ->
    yaml_Unmarshal content = Some doc ->
    exists st'',
      GetServerConfig fs' st' = Returned (loadServerConfig doc) st'' /\
      journal st'' = Unmarshal content :: ReadFile (configFile st)
                       :: journal st'.
Proof.
  unfold Conf.GetServerConfig.
  destruct (serverConfig st) as [c|] eqn:Hcfg; [discriminate|]. simpl.
  destruct (fs _) as [content|] eqn:Hfs.
  - destruct (yaml_Unmarshal content) as [doc|] eqn:Hdoc; [discriminate|].
    intros [= <-]. simpl. rewrite Hcfg.
    repeat split; [right; eauto|].
    intros fs' content' doc' Hfs' Hdoc'. rewrite Hfs', Hdoc'. eauto.
  - intros [= <-]. simpl. rewrite Hcfg.
    repeat split; [left; auto|].
    intros fs' content' doc' Hfs' Hdoc'. rewrite Hfs', Hdoc'. eauto.
Qed.

(** X2. On the first call with a readable, well-formed file, each of the
    four life times of the returned configuration is a value of [int64],
    and for a key configured as a non-zero [n] it is [n] minutes exactly
    when [n] lies between -153722867 and 153722867; beyond that the
    product with [time.Minute] has wrapped around. *)
Theorem GetServerConfig_lifetime_exact_iff fs st content doc :
  serverConfig st = None ->
  fs (configFile st) = Some content ->
  yaml_Unmarshal content = Some doc ->
  exists c st',
    GetServerConfig fs st = Returned c st' /\
    (fitsInt64 (SessionLifeTime c) /\ fitsInt64 (TokenLifeTime c) /\
     fitsInt64 (GrantReqLifeTime c) /\ fitsInt64 (CleanerInterval c)) /\
    (forall n, configured (yaml_SessionLifeTime doc) n ->
       (SessionLifeTime c = n * Minute <-> -153722867 <= n <= 153722867)) /\
    (forall n, configured (yaml_TokenLifeTime doc) n ->
       (TokenLifeTime c = n * Minute <-> -153722867 <= n <= 153722867)) /\
    (forall n, configured (yaml_GrantReqLifeTime doc) n ->
       (GrantReqLifeTime c = n * Minute <-> -153722867 <= n <= 153722867)) /\
    (forall n, configured (yaml_CleanerInterval doc) n ->
       (CleanerInterval c = n * Minute <-> -153722867 <= n <= 153722867)).
Proof.
  intros Hnil Hfs Hdoc.
  eexists _, _.
  split; [exact (ConfProofs.GetServerConfig_first path_Join yaml_Unmarshal
                   fs st content doc Hnil Hfs Hdoc)|].
  unfold loadServerConfig, configured. simpl.
  split; [repeat split; apply wrap64_range|].
  split; [|split; [|split]]; intros n [-> Hn]; simpl;
    destruct (decide (n = 0)); try contradiction;
    apply Duration_mul_exact_iff.
Qed.

Lemma GetServerConfig_from_loader fs st c st' :
  ConfPkg.fromLoader st ->
  GetServerConfig fs st = Returned c st' ->
  ConfPkg.fromLoader st' /\ exists doc, c = loadServerConfig doc.
Proof.
  intros Hinv. unfold Conf.GetServerConfig.
  destruct (serverConfig st) as [c0|] eqn:Hcfg.
  - intros [= <- <-]. split; [exact Hinv | now apply Hinv].
  - simpl. destruct (fs _); [|discriminate].
    destruct (yaml_Unmarshal _) as [doc|]; [|discriminate].
    intros [= <- <-]. split; [|eauto].
    intros c' [= <-]. eauto.
Qed.

Lemma process_from_loader ops : forall st,
  ConfPkg.fromLoader st ->
  Forall (fun c => exists doc, c = loadServerConfig doc)
         (fst (process ops st)).
Proof.
  induction ops as [|[fs|res] rest IH]; intros st Hinv; simpl.
  - constructor.
  - destruct (GetServerConfig fs st) as [c st'|st'] eqn:Hcall;
      [|constructor].
    destruct (GetServerConfig_from_loader fs st c st' Hinv Hcall)
      as [Hinv' Hc].
    specialize (IH st' Hinv').
    destruct (process rest st') as [cs st'']. simpl in *.
    now constructor.
  - apply IH. exact Hinv.
Qed.


End Calls.

(** X4. The base URL made up for a configuration without one tells the
    ports of a host apart: two documents with the same host and no
    [BaseURL] get the same base URL only if they have the same port. *)
Theorem default_BaseURL_determines_port doc1 doc2 :
  default "" (yaml_BaseURL doc1) = "" ->
  default "" (yaml_BaseURL doc2) = "" ->
  default "" (yaml_Host doc1) = default "" (yaml_Host doc2) ->
  BaseURL (loadServerConfig doc1) = BaseURL (loadServerConfig doc2) ->
  Port (loadServerConfig doc1) = Port (loadServerConfig doc2).
Proof.
  unfold loadServerConfig. simpl.
  intros -> -> ->.
  set (h := default "" (yaml_Host doc2)).
  set (p1 := default 0 (yaml_Port doc1)).
  set (p2 := default 0 (yaml_Port doc2)).
  assert (Hlen : forall d, h <> h +:+ ":" +:+ d).
  { intros d E. apply (f_equal String.length) in E.
    rewrite append_length in E. simpl in E. lia. }
  repeat case_decide; try congruence; intros [= E]; simpl in E.
  - now apply Hlen in E.
  - symmetry in E. now apply Hlen in E.
  - apply (String.app_inj h) in E. injection E as E.
    now apply ConfProofs.fmt_d_inj.
Qed.

(** A file that does not parse, then one that does. *)
Lemma GetServerConfig_panic_not_cached_witness :
  exists st' st'',
    GetServerConfig sampleJoin sampleUnmarshal (sampleFiles "garbage")
      (initial "res") = Panicked st' /\
    GetServerConfig sampleJoin sampleUnmarshal (sampleFiles "")
      st' = Returned (loadServerConfig emptyYaml) st'' /\
    journal st'' = [ Unmarshal ""; ReadFile "res/conf/server.yml";
                     Unmarshal "garbage"; ReadFile "res/conf/server.yml" ].
Proof.
  eexists _.
  destruct (GetServerConfig_panic_not_cached sampleJoin sampleUnmarshal
              (sampleFiles "garbage") (initial "res") _ eq_refl)
    as (_ & _ & _ & _ & Hretry).
  destruct (Hretry (sampleFiles "") "" emptyYaml eq_refl eq_refl)
    as (st'' & Hcall & Hj).
  exists st''. split; [reflexivity|]. split; [exact Hcall|].
  rewrite Hj. reflexivity.
Defined.

(** A session life time one minute past the range, a negative token life
    time within it. *)
Lemma GetServerConfig_lifetime_exact_iff_witness :
  exists c st',
    GetServerConfig sampleJoin ConfPkg.sampleHttp
      (sampleFiles "Http: overflow") (initial "res") = Returned c st' /\
    SessionLifeTime c <> 153722868 * Minute /\
    TokenLifeTime c = -60 * Minute.
Proof.
  destruct (GetServerConfig_lifetime_exact_iff sampleJoin ConfPkg.sampleHttp
              (sampleFiles "Http: overflow") (initial "res")
              "Http: overflow" ConfPkg.overflowYaml
              eq_refl eq_refl eq_refl)
    as (c & st' & Hcall & _ & Hs & Ht & _).
  exists c, st'. split; [exact Hcall|]. split.
  - intros E. apply (Hs 153722868) in E; [lia|]. split; [reflexivity|lia].
  - apply (Ht (-60)); [split; [reflexivity|lia] | lia].
Defined.

(** Ports 8081 and 80 of localhost. *)
Lemma default_BaseURL_determines_port_witness :
  BaseURL (loadServerConfig sampleYaml)
    <> BaseURL (loadServerConfig ConfPkg.overflowYaml).
Proof.
  intros E.
  pose proof (default_BaseURL_determines_port sampleYaml
                ConfPkg.overflowYaml eq_refl eq_refl eq_refl E) as Hport.
  vm_compute in Hport. discriminate Hport.
Defined.

End ConfMoreProofs.

(* ===================================================================== *)
(** ** Properties of the other helpers of package conf *)
(* ===================================================================== *)

Module ConfPkgProofs.
Import ConfPkg.

Lemma isSet_fmap {A B} (f : A -> B) (o : option A) :
  isSet (f <$> o) = isSet o.
Proof. now destruct o. Qed.

Lemma loadedCount_held v :
  loadedCount v
  = (isSet (held Server v) + isSet (held Db v) + isSet (held Smtp v))%nat.
Proof. unfold loadedCount, held. now rewrite !isSet_fmap. Qed.

Lemma held_getterOf g v x : held g v = Some x -> getterOf x = g.
Proof.
  destruct g; simpl; intros Hx;
    apply fmap_Some in Hx as (c & _ & ->); reflexivity.
Qed.

Section Helpers.

Variable path_Join : list string -> string.
Variable yaml_Http : string -> option Conf.HttpYaml.
Variable yaml_Db : string -> option DbYaml.
Variable yaml_Smtp : string -> option SmtpYaml.

Local Abbreviation GetServerConfig := (GetServerConfig path_Join yaml_Http).
Local Abbreviation GetDbConfig := (GetDbConfig path_Join yaml_Db).
Local Abbreviation GetSmtpCredentials :=
  (GetSmtpCredentials path_Join yaml_Smtp).
Local Abbreviation get := (get path_Join yaml_Http yaml_Db yaml_Smtp).
Local Abbreviation run := (run path_Join yaml_Http yaml_Db yaml_Smtp).

Local Abbreviation fileOf := (fileOf path_Join).

(** A getter whose variable is set returns it and touches nothing. *)
Lemma get_set g fs v x : held g v = Some x -> get g fs v = Done x v.
Proof.
  destruct v as [[res sc j] db sm], g; simpl;
    unfold ConfPkg.get, ConfPkg.GetServerConfig, Conf.GetServerConfig,
           ConfPkg.GetDbConfig, ConfPkg.GetSmtpCredentials; simpl.
  - destruct sc; [|discriminate]. now intros [= <-].
  - destruct db; [|discriminate]. now intros [= <-].
  - destruct sm; [|discriminate]. now intros [= <-].
Qed.

(** A getter whose variable is unset reads its file; it sets its own
    variable when it returns and no variable when it panics. *)
Lemma get_unset g fs v :
  held g v = None ->
  match get g fs v with
  | Done x v' =>
      held g v' = Some x /\
      (forall g', g' <> g -> held g' v' = held g' v) /\
      Conf.resourcesPath (base v') = Conf.resourcesPath (base v) /\
      exists content,
        fs (fileOf g v) = Some content /\
        journalOf v' = Conf.Unmarshal content :: Conf.ReadFile (fileOf g v)
                         :: journalOf v
  | Aborted v' =>
      (forall g', held g' v' = held g' v) /\
      Conf.resourcesPath (base v') = Conf.resourcesPath (base v) /\
      (fs (fileOf g v) = None /\
         journalOf v' = Conf.ReadFile (fileOf g v) :: journalOf v
       \/ exists content,
            fs (fileOf g v) = Some content /\
            journalOf v' = Conf.Unmarshal content
                             :: Conf.ReadFile (fileOf g v) :: journalOf v)
  end.
Proof.
  destruct v as [[res sc j] db sm], g; simpl;
    unfold ConfPkg.get, ConfPkg.GetServerConfig, Conf.GetServerConfig,
           ConfPkg.GetDbConfig, ConfPkg.GetSmtpCredentials, ConfPkg.fileOf; simpl.
  - destruct sc; [discriminate|]. intros _. simpl.
    destruct (fs _) as [content|] eqn:Hfs; simpl.
    + destruct (yaml_Http content); simpl.
      * repeat split; eauto; intros [] Hne; try reflexivity; congruence.
      * repeat split; eauto; intros []; reflexivity.
    + repeat split; eauto; intros []; reflexivity.
  - destruct db; [discriminate|]. intros _.
    destruct (fs _) as [content|] eqn:Hfs; simpl.
    + destruct (yaml_Db content); simpl.
      * repeat split; eauto; intros [] Hne; try reflexivity; congruence.
      * repeat split; eauto; intros []; reflexivity.
    + repeat split; eauto; intros []; reflexivity.
  - destruct sm; [discriminate|]. intros _.
    destruct (fs _) as [content|] eqn:Hfs; simpl.
    + destruct (yaml_Smtp content); simpl.
      * repeat split; eauto; intros [] Hne; try reflexivity; congruence.
      * repeat split; eauto; intros []; reflexivity.
    + repeat split; eauto; intros []; reflexivity.
Qed.

Lemma held_SetResourcesPath g res v :
  held g (withBase (Conf.SetResourcesPath res (base v)) v) = held g v.
Proof. now destruct g. Qed.

(** A variable that is set keeps its value for the rest of the process. *)
Lemma run_keeps calls : forall v g x,
  held g v = Some x -> held g (snd (run calls v)) = Some x.
Proof.
  induction calls as [|[g' fs|res] rest IH]; intros v g x Hx; simpl.
  - exact Hx.
  - destruct (held g' v) as [y|] eqn:Hy.
    + rewrite (get_set g' fs v y Hy).
      specialize (IH v g x Hx). now destruct (run rest v).
    + pose proof (get_unset g' fs v Hy) as Hstep.
      destruct (get g' fs v) as [y v'|v'].
      * destruct Hstep as (_ & Hother & _).
        assert (Hx' : held g v' = Some x).
        { rewrite Hother; [exact Hx | intros ->; congruence]. }
        specialize (IH v' g x Hx'). now destruct (run rest v').
      * destruct Hstep as (Hall & _). simpl. now rewrite Hall.
  - apply IH. now rewrite held_SetResourcesPath.
Qed.

Lemma loadedCount_le v : (loadedCount v <= 3)%nat.
Proof.
  unfold loadedCount.
  destruct (Conf.serverConfig (base v)), (dbConfig v), (smtpCred v);
    simpl; lia.
Qed.

Lemma loadedCount_unset g v :
  held g v = None -> (loadedCount v <= 2)%nat.
Proof.
  unfold loadedCount.
  destruct v as [[res sc j] db sm], g; simpl; intros Hg;
    destruct sc, db, sm; simpl in *; try discriminate; lia.
Qed.

Lemma loadedCount_step g v v' x :
  held g v = None -> held g v' = Some x ->
  (forall g', g' <> g -> held g' v' = held g' v) ->
  loadedCount v' = S (loadedCount v).
Proof.
  rewrite !loadedCount_held. intros Hg Hg' Hother.
  destruct g; rewrite Hg, Hg';
    repeat (rewrite Hother by discriminate); simpl; lia.
Qed.

(** The journal never holds more reads, or parses, than there are
    variables set; a panic adds one read and at most one parse. *)
Lemma run_counts calls : forall v,
  (countReads (journalOf v) <= loadedCount v)%nat ->
  (countParses (journalOf v) <= loadedCount v)%nat ->
  (countReads (journalOf (snd (run calls v))) <= 3)%nat /\
  (countParses (journalOf (snd (run calls v))) <= 3)%nat.
Proof.
  induction calls as [|[g fs|res] rest IH]; intros v Hr Hp; simpl.
  - pose proof (loadedCount_le v). lia.
  - destruct (held g v) as [y|] eqn:Hy.
    + rewrite (get_set g fs v y Hy).
      specialize (IH v Hr Hp). now destruct (run rest v).
    + pose proof (get_unset g fs v Hy) as Hstep.
      pose proof (loadedCount_unset g v Hy) as Hle.
      destruct (get g fs v) as [y v'|v'].
      * destruct Hstep as (Hg' & Hother & _ & content & _ & Hj).
        pose proof (loadedCount_step g v v' y Hy Hg' Hother) as Hcount.
        assert (Hr' : (countReads (journalOf v') <= loadedCount v')%nat).
        { rewrite Hj, Hcount. unfold countReads in *. simpl. lia. }
        assert (Hp' : (countParses (journalOf v') <= loadedCount v')%nat).
        { rewrite Hj, Hcount. unfold countParses in *. simpl. lia. }
        specialize (IH v' Hr' Hp'). now destruct (run rest v').
      * destruct Hstep as (_ & _ & [[_ Hj] | (content & _ & Hj)]);
          simpl; rewrite Hj; unfold countReads, countParses in *;
          simpl; lia.
  - apply IH; assumption.
Qed.

Lemma run_values calls : forall v,
  Forall (fun x => held (getterOf x) (snd (run calls v)) = Some x)
         (fst (run calls v)).
Proof.
  induction calls as [|[g fs|res] rest IH]; intros v; simpl.
  - constructor.
  - assert (Hdone : forall x v', get g fs v = Done x v' ->
              held (getterOf x) v' = Some x).
    { intros x v' Hget. destruct (held g v) as [y|] eqn:Hy.
      - rewrite (get_set g fs v y Hy) in Hget. injection Hget as <- <-.
        now rewrite (held_getterOf g v y Hy).
      - pose proof (get_unset g fs v Hy) as Hstep. rewrite Hget in Hstep.
        destruct Hstep as (Hg' & _).
        now rewrite (held_getterOf g v' x Hg'). }
    destruct (get g fs v) as [x v'|v'] eqn:Hget; [|constructor].
    specialize (IH v'). specialize (Hdone x v' eq_refl).
    pose proof (run_keeps rest v' (getterOf x) x Hdone) as Hkeep.
    destruct (run rest v') as [xs v'']. simpl in *.
    now constructor.
  - apply IH.
Qed.

(** X15. A getter touches its own variable only: when it returns, its
    variable holds the value returned and the two other variables are as
    before; when it panics, all three variables are as before. The
    resource path is never changed by a getter. *)
Theorem getter_touches_own_variable_only g fs v :
  match get g fs v with
  | Done x v' =>
      held g v' = Some x /\
      (forall g', g' <> g -> held g' v' = held g' v) /\
      Conf.resourcesPath (base v') = Conf.resourcesPath (base v)
  | Aborted v' =>
      held g v = None /\
      (forall g', held g' v' = held g' v) /\
      Conf.resourcesPath (base v') = Conf.resourcesPath (base v)
  end.
Proof.
  destruct (held g v) as [y|] eqn:Hy.
  - rewrite (get_set g fs v y Hy). auto.
  - pose proof (get_unset g fs v Hy) as Hstep.
    destruct (get g fs v) as [x v'|v'].
    + destruct Hstep as (Hg & Hother & Hres & _). auto.
    + destruct Hstep as (Hall & Hres & _). auto.
Qed.

(** X5. Whatever a process does with the package from its start (calls of
    [GetServerConfig], [GetDbConfig], [GetSmtpCredentials] and
    [SetResourcesPath] in any order and number, files changing at will, a
    panic ending it), files are read at most three times and parsed at
    most three times, and every value a getter returned is the one its
    variable holds at the end: each getter returns one and the same value
    all along. *)
Theorem package_loads_each_variable_once GOPATH calls :
  let xs := fst (run calls (initVars path_Join GOPATH)) in
  let v := snd (run calls (initVars path_Join GOPATH)) in
  (countReads (journalOf v) <= 3)%nat /\
  (countParses (journalOf v) <= 3)%nat /\
  Forall (fun x => held (getterOf x) v = Some x) xs.
Proof.
  cbv zeta.
  destruct (run_counts calls (initVars path_Join GOPATH)) as [Hr Hp].
  - unfold countReads. simpl. lia.
  - unfold countParses. simpl. lia.
  - split; [exact Hr|]. split; [exact Hp|]. apply run_values.
Qed.

(** X6. [GetSmtpCredentials] loads from the file that [GetServerConfig]
    loads from: called in the same state with neither variable set, the
    two leave the same journal behind, the read of
    [resourcesPath/conf/server.yml] and, when the read succeeds, the parse
    of its content. *)
Theorem GetSmtpCredentials_reads_server_file fs v :
  Conf.serverConfig (base v) = None ->
  smtpCred v = None ->
  let file := path_Join [Conf.resourcesPath (base v);
                         path_Join ["conf"; "server.yml"]] in
  journalOf (varsOf (GetSmtpCredentials fs v))
    = journalOf (varsOf (GetServerConfig fs v)) /\
  (fs file = None /\
     journalOf (varsOf (GetSmtpCredentials fs v))
       = Conf.ReadFile file :: journalOf v
   \/ exists content,
        fs file = Some content /\
        journalOf (varsOf (GetSmtpCredentials fs v))
          = Conf.Unmarshal content :: Conf.ReadFile file :: journalOf v).
Proof.
  destruct v as [[res sc j] db sm]. simpl. intros -> ->.
  unfold ConfPkg.GetSmtpCredentials, ConfPkg.GetServerConfig,
         Conf.GetServerConfig, serverConfigFile, Conf.serverConfigFile.
  simpl.
  destruct (fs _) as [content|]; simpl; [|split; [reflexivity | now left]].
  destruct (yaml_Smtp content), (yaml_Http content); simpl;
    (split; [reflexivity | right; eauto]).
Qed.

(** X7. Two different getters can be called in either order: if both
    return in one order, both return the same values in the other, the
    variables end up the same and the journal holds the same events. *)
Theorem getters_commute g1 g2 fs1 fs2 v x y v' :
  g1 <> g2 ->
  run [Get g1 fs1; Get g2 fs2] v = ([x; y], v') ->
  exists v'',
    run [Get g2 fs2; Get g1 fs1] v = ([y; x], v'') /\
    (forall g, held g v'' = held g v') /\
    Conf.resourcesPath (base v'') = Conf.resourcesPath (base v') /\
    journalOf v'' ≡ₚ journalOf v'.
Proof.
  intros Hne.
  destruct v as [[res sc j] db sm], g1, g2; try congruence; simpl;
    unfold ConfPkg.get, ConfPkg.GetServerConfig, Conf.GetServerConfig,
           ConfPkg.GetDbConfig, ConfPkg.GetSmtpCredentials; simpl;
    repeat match goal with
           | |- context [match ?o with Some _ => _ | None => _ end] =>
               destruct o eqn:?; simpl
           end;
    intros Hrun; simplify_eq; simpl;
    (eexists; split; [reflexivity|]; simpl;
     split; [intros []; reflexivity|]; split; [reflexivity|];
     unfold journalOf; simpl; solve_Permutation).
Qed.

End Helpers.

(** *** With the [path.Join] of the Go library *)

(** The model of [Clean] and [Join] on the examples of the Go library's
    own tests of package path. *)
Example Clean_on_library_examples :
  map Path.Clean
    [ ""; "abc"; "abc/def"; "."; ".."; "../.."; "../../abc"; "/abc"; "/";
      "abc/"; "abc/def/"; "./"; "../"; "../../"; "/abc/";
      "abc//def//ghi"; "//abc"; "///abc"; "//abc//"; "abc//";
      "abc/./def"; "/./abc/def"; "abc/.";
      "abc/def/ghi/../jkl"; "abc/def/../ghi/../jkl"; "abc/def/..";
      "abc/def/../.."; "/abc/def/../.."; "abc/def/../../..";
      "/abc/def/../../.."; "abc/def/../../../ghi/jkl/../../../mno";
      "abc/./../def"; "abc//./../def"; "abc/../../././../def" ]
  = [ "."; "abc"; "abc/def"; "."; ".."; "../.."; "../../abc"; "/abc"; "/";
      "abc"; "abc/def"; "."; ".."; "../.."; "/abc";
      "abc/def/ghi"; "/abc"; "/abc"; "/abc"; "abc";
      "abc/def"; "/abc/def"; "abc";
      "abc/def/jkl"; "abc/jkl"; "abc";
      "."; "/"; "..";
      "/"; "../../mno";
      "def"; "def"; "../../def" ].
Proof. vm_compute. reflexivity. Qed.

Example Join_on_library_examples :
  map Path.Join
    [ []; [""]; ["a"]; ["a"; "b"]; ["a"; ""]; [""; "b"]; ["/"; "a"];
      ["/"; ""]; ["a/"; "b"]; ["a/"; ""]; [""; ""] ]
  = [ ""; ""; "a"; "a/b"; "a"; "b"; "/a"; "/"; "a/b"; "a"; "" ].
Proof. vm_compute. reflexivity. Qed.

Lemma rev_snoc_string (l : list ascii) (a : ascii) :
  string_of_list_ascii (rev (a :: l)) <> "".
Proof.
  simpl. destruct (rev l); simpl; discriminate.
Qed.

(** [Clean] never returns the empty string. *)
Lemma Clean_nonempty path : Path.Clean path <> "".
Proof.
  unfold Path.Clean. destruct path as [|c rest]; [discriminate|].
  match goal with
  | |- context [match ?o with [] => _ | _ => _ end] => destruct o
  end; [discriminate | apply rev_snoc_string].
Qed.

(** [Join] returns the empty string for empty elements only. *)
Lemma Join_empty_iff elem :
  Path.Join elem = "" <-> Forall (fun e => e = "") elem.
Proof.
  induction elem as [|e rest IH]; simpl.
  - split; [constructor | reflexivity].
  - case_decide as He.
    + rewrite IH. split; [now constructor | now inversion 1].
    + split; [intros E; now apply Clean_nonempty in E|].
      inversion 1; contradiction.
Qed.

Lemma Join_cons_nonempty e rest :
  e <> "" -> Path.Join (e :: rest) = Path.Clean (Util.Join (e :: rest) "/").
Proof. intros He. simpl. now case_decide. Qed.

(** Joining with a join of elements that is clean as it stands is joining
    with the elements. *)
Lemma Join_nested res first rest :
  first <> "" ->
  Path.Clean (Util.Join (first :: rest) "/")
    = Util.Join (first :: rest) "/" ->
  Path.Join [res; Path.Join (first :: rest)]
    = Path.Join (res :: first :: rest).
Proof.
  intros Hfirst Hclean.
  assert (Hjoin : Path.Join (first :: rest) = Util.Join (first :: rest) "/").
  { simpl. case_decide; [contradiction | exact Hclean]. }
  assert (Hne : Util.Join (first :: rest) "/" <> "").
  { rewrite <- Hclean. apply Clean_nonempty. }
  rewrite Hjoin.
  change (Path.Join [res; Util.Join (first :: rest) "/"])
    with (if decide (res = "")
          then Path.Join [Util.Join (first :: rest) "/"]
          else Path.Clean (Util.Join [res; Util.Join (first :: rest) "/"] "/")).
  change (Path.Join (res :: first :: rest))
    with (if decide (res = "") then Path.Join (first :: rest)
          else Path.Clean (Util.Join (res :: first :: rest) "/")).
  case_decide as Hres.
  - rewrite Hjoin. simpl. case_decide; [contradiction | exact Hclean].
  - reflexivity.
Qed.

Section PathHelpers.

Variable yaml_Http : string -> option Conf.HttpYaml.
Variable yaml_Db : string -> option DbYaml.
Variable yaml_Smtp : string -> option SmtpYaml.

Local Abbreviation get := (get Path.Join yaml_Http yaml_Db yaml_Smtp).

(** The base name of the file of a getter. *)
Local Abbreviation baseName g :=
  (match g with Db => "dbconf.yml" | _ => "server.yml" end).

Lemma fileOf_resource g v :
  fileOf Path.Join g v
  = GetResourceFile Path.Join (base v) ["conf"; baseName g].
Proof.
  unfold fileOf, GetResourceFile, serverConfigFile, dbConfigFile.
  destruct g; apply Join_nested; try discriminate; reflexivity.
Qed.

(** X8. The paths that the package builds in two steps are the paths that
    [GetResourceFile] builds in one: [GetClientsConfigFile] is
    [GetResourceFile("conf", "clients.yml")], [GetStaticFilesDir] is
    [GetResourceFile("static")], and a getter whose variable is unset
    reads [GetResourceFile("conf", "server.yml")], for [GetDbConfig]
    [GetResourceFile("conf", "dbconf.yml")], whatever the resource path
    is. *)
Theorem config_files_are_resource_files g fs v :
  held g v = None ->
  In (Conf.ReadFile (GetResourceFile Path.Join (base v) ["conf"; baseName g]))
     (journalOf (varsOf (get g fs v))) /\
  GetClientsConfigFile Path.Join (base v)
    = GetResourceFile Path.Join (base v) ["conf"; "clients.yml"] /\
  GetStaticFilesDir Path.Join (base v)
    = GetResourceFile Path.Join (base v) ["static"].
Proof.
  intros Hg. split; [|split].
  - rewrite <- fileOf_resource.
    pose proof (get_unset Path.Join yaml_Http yaml_Db yaml_Smtp g fs v Hg)
      as Hstep.
    destruct (get g fs v) as [x v'|v']; simpl.
    + destruct Hstep as (_ & _ & _ & content & _ & ->). simpl. auto.
    + destruct Hstep as (_ & _ & [[_ ->] | (content & _ & ->)]);
        simpl; auto.
  - unfold GetClientsConfigFile, GetResourceFile, clientsConfigFile.
    apply Join_nested; [discriminate | reflexivity].
  - unfold GetStaticFilesDir, GetResourceFile, staticFilesDir.
    apply Join_nested; [discriminate | reflexivity].
Qed.

(** X9. When GOPATH is unset and [SetResourcesPath] has not been called,
    every path of the package is relative to the working directory:
    [GetResourceFile] joins its elements alone, the clients file is
    [conf/clients.yml], the static files are in [static], and the first
    file a getter reads is [conf/server.yml], for [GetDbConfig]
    [conf/dbconf.yml]. With GOPATH set, the resource path is the cleaned
    [GOPATH/src/github.com/G-Node/gin-auth/resources]. *)
Theorem unset_GOPATH_gives_relative_paths g fs p GOPATH :
  GetResourceFile Path.Join (init Path.Join "") p = Path.Join p /\
  GetClientsConfigFile Path.Join (init Path.Join "") = "conf/clients.yml" /\
  GetStaticFilesDir Path.Join (init Path.Join "") = "static" /\
  last (journalOf (varsOf (get g fs (initVars Path.Join ""))))
    = Some (Conf.ReadFile ("conf/" +:+ baseName g)) /\
  (GOPATH <> "" ->
   Conf.resourcesPath (init Path.Join GOPATH)
     = Path.Clean (GOPATH +:+ "/src/github.com/G-Node/gin-auth/resources")).
Proof.
  split; [reflexivity|]. split; [reflexivity|]. split; [reflexivity|].
  split.
  - pose proof (get_unset Path.Join yaml_Http yaml_Db yaml_Smtp g fs
                  (initVars Path.Join "")) as Hstep.
    assert (Hfile : fileOf Path.Join g (initVars Path.Join "")
                    = "conf/" +:+ baseName g) by now destruct g.
    rewrite Hfile in Hstep.
    destruct (get g fs (initVars Path.Join "")) as [x v'|v']; simpl.
    + destruct Hstep as (_ & _ & _ & content & _ & ->);
        [now destruct g | reflexivity].
    + destruct Hstep as (_ & _ & [[_ ->] | (content & _ & ->)]);
        solve [now destruct g | reflexivity].
  - intros Hset. unfold init.
    cbn [Conf.resourcesPath]. destruct (decide (GOPATH = "")) as [|_];
      [contradiction|].
    now rewrite Join_cons_nonempty.
Qed.

End PathHelpers.

(** X10. [GetResourceFile] returns the empty string exactly when the
    resource path and all the elements given are empty; its result is the
    cleaned path otherwise. *)
Theorem GetResourceFile_empty_iff st p :
  GetResourceFile Path.Join st p = ""
  <-> Conf.resourcesPath st = "" /\ Forall (fun e => e = "") p.
Proof.
  unfold GetResourceFile. cbv zeta.
  change ([Conf.resourcesPath st] ++ p)%list
    with (Conf.resourcesPath st :: p).
  rewrite Join_empty_iff.
  split; [now inversion 1 | intros [? ?]; now constructor].
Qed.

(** The variables at process start under the resource path [res]. *)
Lemma sampleVars_unset :
  held Smtp {| base := Conf.initial "res"; dbConfig := None;
               smtpCred := None |} = None.
Proof. reflexivity. Defined.

(** Both getters on a well-formed [res/conf/server.yml]. *)
Lemma GetSmtpCredentials_reads_server_file_witness :
  journalOf (varsOf (GetSmtpCredentials Conf.sampleJoin sampleSmtp
                       (Conf.sampleFiles "Http: sample")
                       {| base := Conf.initial "res"; dbConfig := None;
                          smtpCred := None |}))
  = journalOf (varsOf (GetServerConfig Conf.sampleJoin sampleHttp
                         (Conf.sampleFiles "Http: sample")
                         {| base := Conf.initial "res"; dbConfig := None;
                            smtpCred := None |})).
Proof.
  exact (proj1 (GetSmtpCredentials_reads_server_file Conf.sampleJoin
                  sampleHttp sampleSmtp (Conf.sampleFiles "Http: sample")
                  {| base := Conf.initial "res"; dbConfig := None;
                     smtpCred := None |} eq_refl eq_refl)).
Defined.

(** The credentials first, then the configuration, and the other way
    round. *)
Lemma getters_commute_witness :
  exists v'',
    run Conf.sampleJoin sampleHttp sampleDb sampleSmtp
      [ Get Server (Conf.sampleFiles "Http: sample");
        Get Smtp (Conf.sampleFiles "Http: sample") ]
      {| base := Conf.initial "res"; dbConfig := None; smtpCred := None |}
    = ([ ServerValue (Conf.loadServerConfig Conf.sampleYaml);
         SmtpValue {| From := "no-reply@g-node.org"; Password := "";
                      Host := "localhost"; Port := 25; Mode := "print" |} ],
       v'').
Proof.
  edestruct (getters_commute Conf.sampleJoin sampleHttp sampleDb sampleSmtp
               Smtp Server (Conf.sampleFiles "Http: sample")
               (Conf.sampleFiles "Http: sample")
               {| base := Conf.initial "res"; dbConfig := None;
                  smtpCred := None |})
    as (v'' & Hrun & _);
    [discriminate | vm_compute; reflexivity |].
  exists v''. exact Hrun.
Defined.

(** With GOPATH set to [/go], the configuration is read below it. *)
Lemma config_files_are_resource_files_witness :
  In (Conf.ReadFile
        "/go/src/github.com/G-Node/gin-auth/resources/conf/server.yml")
     (journalOf (varsOf (get Path.Join sampleHttp sampleDb sampleSmtp Server
                           (Conf.sampleFiles "")
                           (initVars Path.Join "/go")))).
Proof.
  exact (proj1 (config_files_are_resource_files sampleHttp sampleDb
                  sampleSmtp Server (Conf.sampleFiles "")
                  (initVars Path.Join "/go") eq_refl)).
Defined.

End ConfPkgProofs.

(* ===================================================================== *)
(** ** Properties of the dispatcher and of the message as users see them *)
(* ===================================================================== *)

Module UtilMailProofs.
Import Util UtilMail.

Lemma LF_cons rest : LF +:+ rest = String (ascii_of_nat 10) rest.
Proof. reflexivity. Qed.

Lemma cutLine_append line rest :
  oneLine line = true -> cutLine (line +:+ LF +:+ rest) = Some (line, rest).
Proof.
  induction line as [|c line IH]; intros Hline.
  - reflexivity.
  - cbn [oneLine] in Hline. apply andb_true_iff in Hline as [Hc Hl].
    apply negb_true_iff in Hc.
    change (String c line +:+ LF +:+ rest)
      with (String c (line +:+ LF +:+ rest)).
    cbn [cutLine]. rewrite Hc, (IH Hl). reflexivity.
Qed.

Lemma stripPrefix_append p s : stripPrefix p (p +:+ s) = Some s.
Proof.
  induction p as [|a p IH]; [now destruct s|].
  change (String a p +:+ s) with (String a (p +:+ s)).
  cbn [stripPrefix]. now rewrite bool_decide_eq_true_2.
Qed.

Lemma chopLF_append s : chopLF (s +:+ LF) = Some s.
Proof.
  induction s as [|c s IH]; [reflexivity|].
  change (String c s +:+ LF) with (String c (s +:+ LF)).
  cbn [chopLF]. rewrite IH.
  destruct s; reflexivity.
Qed.

Lemma oneLine_append a b : oneLine (a +:+ b) = oneLine a && oneLine b.
Proof.
  induction a as [|c a IH]; [reflexivity|].
  change (String c a +:+ b) with (String c (a +:+ b)).
  cbn [oneLine]. now rewrite IH, andb_assoc.
Qed.

(** The joined recipients hold no line feed when no recipient does. *)
Lemma oneLine_Join to :
  Forall (fun r => oneLine r = true) to -> oneLine (Join to ", ") = true.
Proof.
  induction 1 as [|r rest Hr _ IH]; [reflexivity|].
  destruct rest as [|r' rest]; [exact Hr|].
  rewrite UtilProofs.Join_cons, !oneLine_append, Hr, IH. reflexivity.
Qed.

(** What [MakePlainEmailTemplate] writes, as lines. *)
Lemma MakePlainEmailTemplate_lines from to subj messageBody :
  MakePlainEmailTemplate from to subj messageBody
  = Ok (unlines [ "From: " +:+ from; "To: " +:+ Join to ", ";
                  "Subject: " +:+ subj; ""; messageBody ]).
Proof.
  unfold MakePlainEmailTemplate.
  destruct (Parse emailTemplate) as [t|] eqn:Ht;
    [|now rewrite UtilProofs.Parse_emailTemplate in Ht].
  now rewrite (UtilProofs.Execute_emailTemplate t _ "" Ht).
Qed.

Lemma readMessage_unlines from to subj messageBody :
  oneLine from = true -> oneLine to = true -> oneLine subj = true ->
  readMessage (unlines [ "From: " +:+ from; "To: " +:+ to;
                         "Subject: " +:+ subj; ""; messageBody ])
  = Some {| From := from; To := to; Subject := subj;
            Body := messageBody |}.
Proof.
  intros Hfrom Hto Hsubj.
  unfold unlines. cbn [fold_right]. unfold readMessage.
  rewrite cutLine_append by now rewrite oneLine_append.
  cbn [mbind option_bind]. rewrite stripPrefix_append.
  cbn [mbind option_bind].
  rewrite cutLine_append by now rewrite oneLine_append.
  cbn [mbind option_bind]. rewrite stripPrefix_append.
  cbn [mbind option_bind].
  rewrite cutLine_append by now rewrite oneLine_append.
  cbn [mbind option_bind]. rewrite stripPrefix_append.
  cbn [mbind option_bind].
  rewrite (cutLine_append "") by reflexivity.
  cbn [mbind option_bind].
  rewrite UtilProofs.append_empty_r, chopLF_append. reflexivity.
Qed.

(** X11. A message made by [MakePlainEmailTemplate] reads back: when the
    sender, the recipients and the subject hold no line feed, the first
    three lines are the [From], [To] and [Subject] headers with the values
    given (the recipients joined by comma-space), the fourth line is empty
    and what follows, up to the final line feed, is the body, whatever the
    body holds. *)
Theorem MakePlainEmailTemplate_reads_back from to subj messageBody :
  oneLine from = true ->
  Forall (fun r => oneLine r = true) to ->
  oneLine subj = true ->
  exists doc,
    MakePlainEmailTemplate from to subj messageBody = Ok doc /\
    readMessage doc
    = Some {| From := from; To := Join to ", "; Subject := subj;
              Body := messageBody |}.
Proof.
  intros Hfrom Hto Hsubj. eexists.
  split; [apply MakePlainEmailTemplate_lines|].
  apply readMessage_unlines; [exact Hfrom | now apply oneLine_Join | exact Hsubj].
Qed.

Lemma commaFree_oneLine_head c r :
  commaFree (String c r) = true -> c <> ","%char /\ commaFree r = true.
Proof.
  cbn [commaFree]. intros H. apply andb_true_iff in H as [Hc Hr].
  apply negb_true_iff, bool_decide_eq_false in Hc. auto.
Qed.

Lemma splitRecipients_step c r :
  c <> ","%char ->
  splitRecipients (String c r)
  = match splitRecipients r with
    | x :: xs => String c x :: xs
    | [] => [String c ""]
    end.
Proof.
  intros Hc. cbn [splitRecipients].
  rewrite (bool_decide_eq_false_2 _ Hc). now destruct r.
Qed.

Lemma splitRecipients_one x :
  commaFree x = true -> splitRecipients x = [x].
Proof.
  induction x as [|c x IH]; [reflexivity|].
  intros H. apply commaFree_oneLine_head in H as [Hc Hx].
  now rewrite (splitRecipients_step c x Hc), (IH Hx).
Qed.

Lemma splitRecipients_append x rest :
  commaFree x = true ->
  splitRecipients (x +:+ ", " +:+ rest) = x :: splitRecipients rest.
Proof.
  induction x as [|c x IH]; [reflexivity|].
  intros H. apply commaFree_oneLine_head in H as [Hc Hx].
  change (String c x +:+ ", " +:+ rest)
    with (String c (x +:+ ", " +:+ rest)).
  now rewrite (splitRecipients_step c _ Hc), (IH Hx).
Qed.

Lemma splitRecipients_Join to :
  to <> [] ->
  Forall (fun r => commaFree r = true) to ->
  splitRecipients (Join to ", ") = to.
Proof.
  intros Hne Hall. induction Hall as [|r rest Hr _ IH]; [contradiction|].
  destruct rest as [|r' rest]; [now apply splitRecipients_one|].
  rewrite UtilProofs.Join_cons, (splitRecipients_append r _ Hr).
  now rewrite IH.
Qed.

(** X12. The recipients read back from the [To] header of the message:
    for a list that is not empty, of recipients without comma or line
    feed, splitting the header at comma-space gives the list that
    [MakePlainEmailTemplate] was given, in order. *)
Theorem MakePlainEmailTemplate_recipients_read_back
    from to subj messageBody :
  to <> [] ->
  Forall (fun r => commaFree r = true) to ->
  oneLine from = true ->
  Forall (fun r => oneLine r = true) to ->
  oneLine subj = true ->
  exists doc c,
    MakePlainEmailTemplate from to subj messageBody = Ok doc /\
    readMessage doc = Some c /\
    splitRecipients (To c) = to.
Proof.
  intros Hne Hcomma Hfrom Hto Hsubj. eexists _, _.
  split; [apply MakePlainEmailTemplate_lines|].
  split; [apply readMessage_unlines;
            [exact Hfrom | now apply oneLine_Join | exact Hsubj]|].
  cbn [To]. now apply splitRecipients_Join.
Qed.

(** X13. A dispatcher made by [NewSmtpSendMailDispatcher] calls its send
    function once per message, in the order of the messages, each time
    with the address [Host:Port], the plain authentication and the sender
    of the configuration it was made with and with the recipients and the
    content of that message; the errors it returns are those of the send
    function. *)
Theorem sendAll_calls_send_in_order {World} (f : SendFunc World)
    (cfg : EmailConfig) (messages : list (list string * string))
    (w : World) (before : list SendCall) :
  sendAll (NewSmtpSendMailDispatcher (recording f) cfg) messages (w, before)
  = (fst (sendAll (NewSmtpSendMailDispatcher f cfg) messages w),
     (snd (sendAll (NewSmtpSendMailDispatcher f cfg) messages w),
      (before ++ map (callFor cfg) messages)%list)).
Proof.
  revert w before.
  induction messages as [|[recipient content] rest IH]; intros w before.
  - simpl. now rewrite app_nil_r.
  - cbn [sendAll dispatch emailDispatcher_dispatch].
    unfold Send. cbn [conf send NewSmtpSendMailDispatcher].
    unfold recording at 1. cbn [fst snd].
    destruct (f _ _ _ _ _ w) as [err w'].
    rewrite IH.
    destruct (sendAll (NewSmtpSendMailDispatcher f cfg) rest w')
      as [errs w''].
    cbn [fst snd map]. unfold callFor at 2. cbn [fst snd].
    now rewrite <- app_assoc.
Qed.

(** A message to two recipients. *)
Lemma MakePlainEmailTemplate_reads_back_witness :
  exists doc,
    MakePlainEmailTemplate "no-reply@g-node.org" ["alice@foo.com"; "bob@foo.com"]
      "Account activation" ("Dear Alice," +:+ LF +:+ LF +:+ "welcome.")
    = Ok doc /\
    readMessage doc
    = Some {| From := "no-reply@g-node.org";
              To := "alice@foo.com, bob@foo.com";
              Subject := "Account activation";
              Body := "Dear Alice," +:+ LF +:+ LF +:+ "welcome." |}.
Proof.
  apply (MakePlainEmailTemplate_reads_back "no-reply@g-node.org"
           ["alice@foo.com"; "bob@foo.com"] "Account activation"
           ("Dear Alice," +:+ LF +:+ LF +:+ "welcome."));
    [reflexivity | repeat constructor | reflexivity].
Defined.

Lemma MakePlainEmailTemplate_recipients_read_back_witness :
  exists doc c,
    MakePlainEmailTemplate "no-reply@g-node.org" ["alice@foo.com"; "bob@foo.com"]
      "Account activation" "welcome" = Ok doc /\
    readMessage doc = Some c /\
    splitRecipients (To c) = ["alice@foo.com"; "bob@foo.com"].
Proof.
  apply (MakePlainEmailTemplate_recipients_read_back "no-reply@g-node.org"
           ["alice@foo.com"; "bob@foo.com"] "Account activation" "welcome");
    [discriminate | repeat constructor | reflexivity | repeat constructor
     | reflexivity].
Defined.

Lemma first_line s :
  oneLine s = false ->
  exists a b, s = a +:+ LF +:+ b /\ oneLine a = true.
Proof.
  induction s as [|c s IH]; [discriminate|].
  cbn [oneLine]. destruct (isLF c) eqn:Hc; simpl.
  - intros _. exists "", s. split; [|reflexivity].
    apply bool_decide_eq_true in Hc. now subst c.
  - intros Hs. destruct (IH Hs) as (a & b & -> & Ha).
    exists (String c a), b. split; [reflexivity|].
    cbn [oneLine]. now rewrite Hc, Ha.
Qed.

(** The [From] that [readMessage] returns is what follows the header name
    on the first line. *)
Lemma readMessage_From doc c :
  readMessage doc = Some c ->
  exists l1 r1, cutLine doc = Some (l1, r1) /\
                stripPrefix "From: " l1 = Some (From c).
Proof.
  unfold readMessage.
  destruct (cutLine doc) as [[l1 r1]|]; [|discriminate].
  cbn [mbind option_bind].
  destruct (stripPrefix "From: " l1) as [from|] eqn:Hstrip; [|discriminate].
  cbn [mbind option_bind].
  destruct (cutLine r1) as [[l2 r2]|]; [|discriminate].
  cbn [mbind option_bind].
  destruct (stripPrefix "To: " l2) as [to|]; [|discriminate].
  cbn [mbind option_bind].
  destruct (cutLine r2) as [[l3 r3]|]; [|discriminate].
  cbn [mbind option_bind].
  destruct (stripPrefix "Subject: " l3) as [subj|]; [|discriminate].
  cbn [mbind option_bind].
  destruct (cutLine r3) as [[l4 r4]|]; [|discriminate].
  cbn [mbind option_bind].
  case_decide; [|discriminate].
  destruct (chopLF r4) as [messageBody|]; [|discriminate].
  cbn [mbind option_bind]. intros [= <-].
  eexists _, _. split; [reflexivity | exact Hstrip].
Qed.

(** X14. [MakePlainEmailTemplate] does not escape its arguments: a sender
    that holds a line feed ends the [From] header early. Whenever the
    message still reads as a header block, the sender read back is only
    the part in front of the first line feed, and what follows it has
    become further lines of the message. *)
Theorem MakePlainEmailTemplate_does_not_escape
    from to subj messageBody doc c :
  oneLine from = false ->
  MakePlainEmailTemplate from to subj messageBody = Ok doc ->
  readMessage doc = Some c ->
  From c <> from /\
  oneLine (From c) = true /\
  exists rest, from = From c +:+ LF +:+ rest.
Proof.
  intros Hfrom Hdoc Hread.
  rewrite MakePlainEmailTemplate_lines in Hdoc. injection Hdoc as <-.
  destruct (first_line from Hfrom) as (a & b & -> & Ha).
  apply readMessage_From in Hread as (l1 & r1 & Hcut & Hstrip).
  unfold unlines in Hcut. cbn [fold_right] in Hcut.
  rewrite <- (UtilProofs.append_assoc "From: " a) in Hcut.
  rewrite !UtilProofs.append_assoc in Hcut.
  rewrite <- (UtilProofs.append_assoc "From: " a) in Hcut.
  rewrite cutLine_append in Hcut by (rewrite oneLine_append; exact Ha).
  injection Hcut as <- <-.
  rewrite stripPrefix_append in Hstrip. injection Hstrip as <-.
  split; [|split; [exact Ha | eauto]].
  intros E. apply (f_equal String.length) in E.
  rewrite !ConfMoreProofs.append_length in E. simpl in E. lia.
Qed.

(** A sender that brings its own recipient, subject and body. *)
Lemma MakePlainEmailTemplate_does_not_escape_witness :
  exists doc c,
    MakePlainEmailTemplate injectedSender ["bob@foo.com"] "s" "body"
      = Ok doc /\
    readMessage doc = Some c /\
    To c = "eve@x" /\
    From c <> injectedSender.
Proof.
  eexists _, _. split; [apply MakePlainEmailTemplate_lines|].
  split; [vm_compute; reflexivity|]. split; [reflexivity|].
  refine (proj1 (MakePlainEmailTemplate_does_not_escape injectedSender
                   ["bob@foo.com"] "s" "body" _ _ eq_refl
                   (MakePlainEmailTemplate_lines _ _ _ _) _)).
  vm_compute. reflexivity.
Defined.

End UtilMailProofs.

(* ===================================================================== *)
(** ** [GetServerConfig] in a process that recovers from panics *)
(* ===================================================================== *)

Module ConfRecoverProofs.
Import ConfPkg ConfRecover.

Lemma newEvents_app (l j : list Conf.Event) : newEvents j (l ++ j)%list = l.
Proof.
  unfold newEvents. rewrite length_app, Nat.add_sub.
  apply take_app_length.
Qed.

Lemma newEvents_same (j : list Conf.Event) : newEvents j j = [].
Proof. apply (newEvents_app [] j). Qed.

Lemma held_Server v c :
  held Server v = Some (ServerValue c)
  <-> Conf.serverConfig (base v) = Some c.
Proof.
  simpl. destruct (Conf.serverConfig (base v)); simpl; split;
    intros [=]; subst; reflexivity.
Qed.

Section Recover.

Variable path_Join : list string -> string.
Variable yaml_Http : string -> option Conf.HttpYaml.
Variable yaml_Db : string -> option DbYaml.
Variable yaml_Smtp : string -> option SmtpYaml.

Local Abbreviation get := (get path_Join yaml_Http yaml_Db yaml_Smtp).
Local Abbreviation call := (call path_Join yaml_Http yaml_Db yaml_Smtp).
Local Abbreviation runRecovering :=
  (runRecovering path_Join yaml_Http yaml_Db yaml_Smtp).
Local Abbreviation get_set :=
  (ConfPkgProofs.get_set path_Join yaml_Http yaml_Db yaml_Smtp).
Local Abbreviation get_unset :=
  (ConfPkgProofs.get_unset path_Join yaml_Http yaml_Db yaml_Smtp).

(** A call of a getter whose variable is set. *)
Lemma call_set g fs v x :
  held g v = Some x ->
  call g fs v = ({| getter := g; returned := Some x; added := [] |}, v).
Proof.
  intros Hx. unfold ConfRecover.call. rewrite (get_set g fs v x Hx).
  simpl. now rewrite newEvents_same.
Qed.

(** A call of a getter whose variable is unset. *)
Lemma call_unset g fs v :
  held g v = None ->
  getter (fst (call g fs v)) = g /\
  countReads (added (fst (call g fs v))) = 1%nat /\
  match returned (fst (call g fs v)) with
  | Some x =>
      countParses (added (fst (call g fs v))) = 1%nat /\
      held g (snd (call g fs v)) = Some x /\
      forall g', g' <> g ->
        held g' (snd (call g fs v)) = held g' v
  | None =>
      (countParses (added (fst (call g fs v))) <= 1)%nat /\
      forall g', held g' (snd (call g fs v)) = held g' v
  end.
Proof.
  intros Hg. pose proof (get_unset g fs v Hg) as Hstep.
  unfold ConfRecover.call.
  destruct (get g fs v) as [x v'|v']; simpl.
  - destruct Hstep as (Hx & Hother & _ & content & _ & Hj).
    rewrite Hj.
    change (?a :: ?b :: journalOf v) with ([a; b] ++ journalOf v)%list.
    rewrite newEvents_app. repeat split; auto.
  - destruct Hstep as (Hall & _ & [[_ Hj] | (content & _ & Hj)]);
      rewrite Hj.
    + change (?a :: journalOf v) with ([a] ++ journalOf v)%list.
      rewrite newEvents_app. repeat split; auto.
    + change (?a :: ?b :: journalOf v) with ([a; b] ++ journalOf v)%list.
      rewrite newEvents_app. repeat split; auto.
Qed.

(** A call of another getter leaves [serverConfig] as it is. *)
Lemma call_other g fs v :
  g <> Server ->
  held Server (snd (call g fs v)) = held Server v /\
  ofServer [fst (call g fs v)] = [].
Proof.
  intros Hg. split.
  - destruct (held g v) as [x|] eqn:Hx.
    + now rewrite (call_set g fs v x Hx).
    + destruct (call_unset g fs v Hx) as (_ & _ & Hret).
      destruct (returned (fst (call g fs v))).
      * destruct Hret as (_ & _ & Hother). apply Hother. congruence.
      * destruct Hret as (_ & Hall). apply Hall.
  - unfold ofServer, ConfRecover.call. simpl.
    now rewrite bool_decide_eq_false_2.
Qed.

Lemma ofServer_cons o os :
  ofServer (o :: os) = (ofServer [o] ++ ofServer os)%list.
Proof. unfold ofServer. simpl. now destruct (bool_decide _). Qed.

(** Once [serverConfig] is set, every call of [GetServerConfig] returns
    it and touches nothing, whatever else the process does. *)
Lemma runRecovering_loaded calls : forall v c,
  held Server v = Some (ServerValue c) ->
  Forall (cachedCall c) (ofServer (fst (runRecovering calls v))) /\
  held Server (snd (runRecovering calls v)) = Some (ServerValue c).
Proof.
  induction calls as [|[g fs|res] rest IH]; intros v c Hc;
    cbn [ConfRecover.runRecovering].
  - split; [constructor | exact Hc].
  - destruct (decide (g = Server)) as [->|Hg].
    + rewrite (call_set Server fs v _ Hc).
      destruct (IH v c Hc) as [Hall Hheld].
      destruct (runRecovering rest v) as [os v'']. cbn [fst snd] in *.
      split; [|exact Hheld].
      rewrite ofServer_cons. apply Forall_app. split; [|exact Hall].
      unfold ofServer. simpl. constructor; [|constructor]. now split.
    + destruct (call_other g fs v Hg) as [Hkeep Hnone].
      destruct (call g fs v) as [o v']. cbn [fst snd] in *.
      rewrite <- Hkeep in Hc. destruct (IH v' c Hc) as [Hall Hheld].
      destruct (runRecovering rest v') as [os v'']. cbn [fst snd] in *.
      split; [|exact Hheld].
      rewrite ofServer_cons, Hnone. exact Hall.
  - apply IH. exact Hc.
Qed.

(** Until [serverConfig] is set, every call of [GetServerConfig] reads
    the file; the first that returns sets it. *)
Lemma runRecovering_unloaded calls : forall v,
  held Server v = None ->
  exists panics returns c,
    ofServer (fst (runRecovering calls v)) = (panics ++ returns)%list /\
    Forall panickedCall panics /\
    match returns with
    | [] => Conf.serverConfig (base (snd (runRecovering calls v))) = None
    | first :: later =>
        loadingCall c first /\ Forall (cachedCall c) later /\
        Conf.serverConfig (base (snd (runRecovering calls v))) = Some c
    end.
Proof.
  induction calls as [|[g fs|res] rest IH]; intros v Hnil;
    cbn [ConfRecover.runRecovering].
  - exists [], [], (Conf.loadServerConfig Conf.emptyYaml).
    split; [reflexivity|]. split; [constructor|].
    cbn [snd]. simpl in Hnil.
    now destruct (Conf.serverConfig (base v)).
  - destruct (decide (g = Server)) as [->|Hg].
    + destruct (call_unset Server fs v Hnil) as (Hwho & Hreads & Hret).
      destruct (call Server fs v) as [o v'] eqn:Hcall. cbn [fst snd] in *.
      destruct (returned o) as [x|] eqn:Hx.
      * destruct Hret as (Hparses & Hheld & _).
        assert (Hc : exists c, x = ServerValue c).
        { simpl in Hheld.
          destruct (Conf.serverConfig (base v')); [|discriminate].
          injection Hheld as <-. eauto. }
        destruct Hc as [c ->].
        destruct (runRecovering_loaded rest v' c Hheld) as [Hall Hend].
        destruct (runRecovering rest v') as [os v'']. cbn [fst snd] in *.
        exists [], (o :: ofServer os), c.
        split; [|split; [constructor|]].
        -- rewrite ofServer_cons. unfold ofServer at 1. simpl.
           now rewrite Hwho, bool_decide_eq_true_2.
        -- split; [now split|]. split; [exact Hall|].
           now apply held_Server.
      * destruct Hret as (Hparses & Hall).
        assert (Hnil' : held Server v' = None) by now rewrite Hall.
        destruct (IH v' Hnil') as (panics & returns & c & Hos & Hp & Hr).
        destruct (runRecovering rest v') as [os v'']. cbn [fst snd] in *.
        exists (o :: panics), returns, c.
        split; [|split; [constructor; [now split | exact Hp] | exact Hr]].
        rewrite ofServer_cons, Hos. unfold ofServer. simpl.
        now rewrite Hwho, bool_decide_eq_true_2.
    + destruct (call_other g fs v Hg) as [Hkeep Hnone].
      destruct (call g fs v) as [o v']. cbn [fst snd] in *.
      assert (Hnil' : held Server v' = None) by now rewrite Hkeep.
      destruct (IH v' Hnil') as (panics & returns & c & Hos & Hp & Hr).
      destruct (runRecovering rest v') as [os v'']. cbn [fst snd] in *.
      exists panics, returns, c.
      split; [|split; assumption].
      now rewrite ofServer_cons, Hnone.
  - apply IH. exact Hnil.
Qed.

Lemma totalReads_app os1 os2 :
  totalReads (os1 ++ os2) = (totalReads os1 + totalReads os2)%nat.
Proof. unfold totalReads. now rewrite map_app, list_sum_app. Qed.

Lemma totalParses_app os1 os2 :
  totalParses (os1 ++ os2) = (totalParses os1 + totalParses os2)%nat.
Proof. unfold totalParses. now rewrite map_app, list_sum_app. Qed.

Lemma panicked_totals panics :
  Forall panickedCall panics ->
  totalReads panics = length panics /\
  (totalParses panics <= length panics)%nat.
Proof.
  induction 1 as [|o os (_ & Hr & Hp) _ [IHr IHp]];
    [split; reflexivity|].
  unfold totalReads, totalParses in *. simpl. rewrite Hr. lia.
Qed.

Lemma cached_totals c later :
  Forall (cachedCall c) later ->
  totalReads later = 0%nat /\ totalParses later = 0%nat.
Proof.
  induction 1 as [|o os [_ Ho] _ [IHr IHp]]; [split; reflexivity|].
  unfold totalReads, totalParses in *. simpl. rewrite Ho. simpl. lia.
Qed.


End Recover.


End ConfRecoverProofs.
